(** * Charting: a shallow embedding of the Framer X chart component

    The repository holds one React component, [Charting], in three
    copies: [Charting.framerfx/code/Charting.tsx], a copy of it followed
    by the [addPropertyControls] block, and a reduced copy whose
    [options] object is empty.  The component's own logic is
    - [makeSeries], the generator of placeholder time series, which
      reads the clock and the random source once per point, and
    - the [options] object literal, which places the props into the
      nested structure the chart library consumes and resolves the
      custom colour strings.

    Conventions of the embedding:
    - a JavaScript number that holds a count, an index or a time value in
      milliseconds is a [Z]; a [Date] is its time value or the invalid
      date, and [new Date(v)] clips [v] to the range a [Date] can hold;
      every other number is an IEEE binary64 value ([spec_float] at
      precision 53), with the product [Math.random() * 3000] rounded by
      [SFmul];
    - a string is a [string] of 8-bit code units;
    - [Date.now()] and [Math.random()] are reads of an explicit [World];
    - a thrown [RangeError] or [TypeError] is the [Throw] result. *)

From Stdlib Require Import String Ascii.
From Stdlib Require Import ZArith List Bool Lia.
From Stdlib Require Import Floats.SpecFloat.
Import ListNotations.

Local Open Scope string_scope.
Local Open Scope Z_scope.

(** ** Numbers *)

Definition prec : Z := 53.
Definition emax : Z := 1024.

(** A JavaScript [number]: a binary64 value. *)
Definition number : Type := spec_float.

(** The binary64 value of an integer literal. *)
Definition number_of_Z (z : Z) : number := binary_normalize prec emax z 0 false.

(** [x * y] on numbers. *)
Definition number_mul (x y : number) : number := SFmul prec emax x y.

(** The integer part of a number, rounding towards zero; [0] for a NaN,
    an infinity or a zero (the first steps of [ToInt32]). *)
Definition truncate (x : number) : Z :=
  match x with
  | S754_finite s m e =>
      let a := Z.shiftl (Zpos m) e in if s then - a else a
  | _ => 0
  end.

(** [ToInt32]: the integer part modulo [2^32], read as a signed 32-bit
    integer. *)
Definition ToInt32 (x : number) : Z :=
  let k := truncate x mod 2 ^ 32 in
  if k <? 2 ^ 31 then k else k - 2 ^ 32.

(** [x | 0]: both operands go through [ToInt32], and [n | 0 = n]. *)
Definition bitor_zero (x : number) : Z := Z.lor (ToInt32 x) 0.

(** What [Math.random()] may return: a number with positive sign,
    greater than or equal to [+0] and strictly less than [1]. *)
Definition in_unit_interval (x : number) : bool :=
  match x with
  | S754_zero false => true
  | S754_finite false m e =>
      bounded prec emax m e && (e <? 0) && (Zpos m <? 2 ^ (- e))
  | _ => false
  end.

Record UnitDouble : Type := {
  draw : number;
  draw_range : in_unit_interval draw = true
}.

(** ** Exceptions and results *)

Inductive Exception : Type :=
| RangeError   (* Invalid array length *)
| TypeError.   (* property access on null *)

Inductive Result (A : Type) : Type :=
| Ok (a : A)
| Throw (e : Exception).

Arguments Ok {A} a.
Arguments Throw {A} e.

(** ** The world: clock and random source

    [dateNow k] is what the [k]-th call of [Date.now()] returns and
    [mathRandom k] what the [k]-th call of [Math.random()] returns;
    the two cursors count the calls made so far. *)

Record World : Type := {
  dateNow : nat -> Z;
  mathRandom : nat -> UnitDouble;
  clockReads : nat;
  randomDraws : nat
}.

(** Computations that read the world and may throw. *)
Definition M (A : Type) : Type := World -> Result (A * World).

Definition ret {A} (a : A) : M A := fun w => Ok (a, w).

Definition bind {A B} (m : M A) (k : A -> M B) : M B :=
  fun w =>
    match m w with
    | Ok (a, w') => k a w'
    | Throw e => Throw e
    end.

Definition lift {A} (r : Result A) : M A :=
  fun w =>
    match r with
    | Ok a => Ok (a, w)
    | Throw e => Throw e
    end.

Declare Scope js_scope.
Delimit Scope js_scope with js.
Notation "x <- m ;; k" := (bind m (fun x => k))
  (at level 100, m at next level, right associativity) : js_scope.
Local Open Scope js_scope.

(** [Date.now()] *)
Definition Date_now : M Z :=
  fun w =>
    Ok (dateNow w (clockReads w),
        {| dateNow := dateNow w; mathRandom := mathRandom w;
           clockReads := S (clockReads w); randomDraws := randomDraws w |}).

(** [Math.random()] *)
Definition Math_random : M number :=
  fun w =>
    Ok (draw (mathRandom w (randomDraws w)),
        {| dateNow := dateNow w; mathRandom := mathRandom w;
           clockReads := clockReads w; randomDraws := S (randomDraws w) |}).

(** ** Arrays *)

(** [Array(len).fill(v)]: the constructor throws a [RangeError] unless
    [len] is an integer of [[0, 2^32)]; [fill] then sets each of the
    [len] slots to [v]. *)
Definition Array_fill {A} (len : Z) (v : A) : Result (list A) :=
  if (0 <=? len) && (len <? 2 ^ 32)
  then Ok (repeat v (Z.to_nat len))
  else Throw RangeError.

(** [a.map((d, i) => f d i)]: the callback runs on the elements in
    index order; a throw of the callback ends the traversal. *)
Fixpoint Array_map_from {A B} (f : A -> nat -> M B) (i : nat) (a : list A)
  : M (list B) :=
  match a with
  | [] => ret []
  | d :: rest =>
      y <- f d i ;;
      ys <- Array_map_from f (S i) rest ;;
      ret (y :: ys)
  end.

Definition Array_map {A B} (f : A -> nat -> M B) (a : list A) : M (list B) :=
  Array_map_from f 0%nat a.

(** ** makeSeries *)

(** A [Date] object: its time value in milliseconds, or the invalid
    date, whose time value is [NaN]. *)
Inductive Date : Type :=
| ValidDate (time : Z)
| InvalidDate.

(** The time values a [Date] can hold lie within 8.64e15 ms of the
    epoch. *)
Definition max_time : Z := 8640000000000000.

(** [new Date(value)] for a number ([TimeClip]): the date with that time
    value, and the invalid date where the value is out of range. *)
Definition Date_new (value : Z) : Date :=
  if Z.abs value <=? max_time then ValidDate value else InvalidDate.

Record DateValue : Type := { date : Date; value : Z }.

Record Series : Type := { data : list (Date * Z) }.

Definition hour_ms : Z := 3600000.

(** The literal [3000] of [Math.random() * 3000]. *)
Definition n3000 : number := Eval cbv in number_of_Z 3000.

(** [Math.max(250, (Math.random() * 3000) | 0)] *)
Definition genValue (r : number) : Z :=
  Z.max 250 (bitor_zero (number_mul r n3000)).

Definition genDateValue (n : Z) : M (list DateValue) :=
  a <- lift (Array_fill n 1) ;;
  Array_map
    (fun (_ : Z) (i : nat) =>
       now <- Date_now ;;
       r <- Math_random ;;
       ret {| date := Date_new (now - Z.of_nat i * hour_ms);
              value := genValue r |})
    a.

Definition makeSeries (seriesCount points : Z) : M (list Series) :=
  a <- lift (Array_fill seriesCount {| data := [] |}) ;;
  Array_map
    (fun (_ : Series) (_ : nat) =>
       g <- genDateValue points ;;
       ret {| data := map (fun v => (date v, value v)) g |})
    a.

(** ** Strings and the colour pattern *)

(** [\d] *)
Definition is_digit (c : ascii) : bool :=
  let n := nat_of_ascii c in (48 <=? n)%nat && (n <=? 57)%nat.

(** The code units that [.] does not match: line feed and carriage
    return (the two further line terminators lie outside 8-bit units). *)
Definition is_line_terminator (c : ascii) : bool :=
  Ascii.eqb c "010" || Ascii.eqb c "013".

(** [.*\d\)] matched at the head of [s].  The star is greedy: it takes a
    further character whenever the rest can still match, and gives up
    characters only when it cannot. *)
Fixpoint match_tail (s : string) : option string :=
  match s with
  | EmptyString => None
  | String c rest =>
      match (if is_line_terminator c then None else match_tail rest) with
      | Some m => Some (String c m)
      | None =>
          if is_digit c
          then match rest with
               | String ")" _ => Some (String c ")")
               | _ => None
               end
          else None
      end
  end.

(** [rgba?\(.*\d\)] matched at the head of [s]. *)
Definition match_here (s : string) : option string :=
  match s with
  | String "r" (String "g" (String "b" (String "a" (String "(" rest)))) =>
      option_map (append "rgba(") (match_tail rest)
  | String "r" (String "g" (String "b" (String "(" rest))) =>
      option_map (append "rgb(") (match_tail rest)
  | _ => None
  end.

(** The matched text of the leftmost match of [/rgba?\(.*\d\)/] in [s],
    or [None] where the pattern matches nowhere. *)
Fixpoint regexp_exec (s : string) : option string :=
  match match_here s with
  | Some m => Some m
  | None =>
      match s with
      | EmptyString => None
      | String _ rest => regexp_exec rest
      end
  end.

(** [item.match(/rgba?\(.*\d\)/)]: [null] ([None]) without a match, else
    the result array, which holds the matched text alone as the pattern
    has no capture group. *)
Definition String_match (item : string) : option (list string) :=
  option_map (fun m => [m]) (regexp_exec item).

(** [item.startsWith("var(")] *)
Definition startsWith_var (item : string) : bool := prefix "var(" item.

(** ** Values handed to the chart library *)

(** The functions that occur in the options: the component's own
    [mounted] hook, whose body is [setMounted(true)], and the callbacks
    the host passed in. *)
Inductive Callback : Type :=
| SetMountedTrue
| HostCallback (name : string).

Local Unset Elimination Schemes.
Inductive JsValue : Type :=
| JUndefined
| JBoolean (b : bool)
| JNumber (x : number)
| JString (s : string)
| JFunction (f : Callback)
| JArray (items : list JsValue)
| JObject (fields : list (string * JsValue)).
Local Set Elimination Schemes.

(** Property lookup in a list of fields; a missing property reads as
    [undefined]. *)
Fixpoint field (key : string) (fields : list (string * JsValue)) : JsValue :=
  match fields with
  | [] => JUndefined
  | (k, v) :: rest => if String.eqb key k then v else field key rest
  end.

(** [o.key] *)
Definition get (o : JsValue) (key : string) : JsValue :=
  match o with
  | JObject fields => field key fields
  | _ => JUndefined
  end.

Notation "o .[ k ]" := (get o k) (at level 1, left associativity, format "o .[ k ]").

(** The object without its property [key]. *)
Definition without (key : string) (o : JsValue) : JsValue :=
  match o with
  | JObject fields =>
      JObject (filter (fun kv => negb (String.eqb key (fst kv))) fields)
  | _ => o
  end.

Definition is_array (v : JsValue) : bool :=
  match v with JArray _ => true | _ => false end.

(** ** Props *)

Inductive ChartTypes : Type := Line | Area | Bar | Heatmap | Radar.

Definition ChartTypes_value (t : ChartTypes) : string :=
  match t with
  | Line => "line"
  | Area => "area"
  | Bar => "bar"
  | Heatmap => "heatmap"
  | Radar => "radar"
  end.

Inductive StrokeCurve : Type := Smooth | Straight | Stepline.

Definition StrokeCurve_value (c : StrokeCurve) : string :=
  match c with
  | Smooth => "smooth"
  | Straight => "straight"
  | Stepline => "stepline"
  end.

Inductive FillType : Type := Solid | Gradient | Pattern.

Definition FillType_value (f : FillType) : string :=
  match f with
  | Solid => "solid"
  | Gradient => "gradient"
  | Pattern => "pattern"
  end.

Record Props : Type := {
  width : option number;
  height : option number;
  points : Z;
  seriesCount : Z;
  chartType : ChartTypes;
  showToolbar : bool;
  showLegend : bool;
  showXaxis : bool;
  showYaxis : bool;
  isStacked : bool;
  isHorizontal : bool;
  colors : list string;
  palette : option string;
  showStroke : bool;
  stroke : number;
  strokeCurve : StrokeCurve;
  fillType : FillType;
  fillOpacity : number;
  onDataPointSelection : option string;
  onDataPointMouseEnter : option string;
  onDataPointMouseLeave : option string
}.

Definition of_optional_string (s : option string) : JsValue :=
  match s with Some x => JString x | None => JUndefined end.

Definition of_optional_callback (f : option string) : JsValue :=
  match f with Some name => JFunction (HostCallback name) | None => JUndefined end.

(** [p == "custom"] and the like, for an optional string [p]. *)
Definition loose_eq (p : option string) (s : string) : bool :=
  match p with Some x => String.eqb x s | None => false end.

(** ** The colour functions of the host library

    [Color(d)] and [Color.toHexString] come from the [framer] package;
    the component only composes them. *)
Class ColorLibrary : Type := {
  ColorObject : Type;
  Color : string -> ColorObject;
  Color_toHexString : ColorObject -> string
}.

(** ** Results without the world *)

Definition and_then {A B} (r : Result A) (k : A -> Result B) : Result B :=
  match r with
  | Ok a => k a
  | Throw e => Throw e
  end.

(** [a.map(f)] for a callback that reads nothing of the world. *)
Fixpoint map_result {A B} (f : A -> Result B) (a : list A) : Result (list B) :=
  match a with
  | [] => Ok []
  | x :: rest =>
      and_then (f x) (fun y =>
      and_then (map_result f rest) (fun ys => Ok (y :: ys)))
  end.

(** ** The options object *)

(** The first callback of [colors.map]: a shared colour of Framer X,
    [var(--token, rgb(...))], gives its embedded colour; [.pop()] on the
    [null] of a failed match is a [TypeError]. *)
Definition resolve_color (item : string) : Result string :=
  if startsWith_var item
  then match String_match item with
       | Some arr => Ok (last arr EmptyString)
       | None => Throw TypeError
       end
  else Ok item.

(** The [colors] property of the options. *)
Definition options_colors `{ColorLibrary} (props : Props) : Result JsValue :=
  if (0 <? length (colors props))%nat && loose_eq (palette props) "custom"
  then and_then (map_result resolve_color (colors props)) (fun resolved =>
       Ok (JArray (map (fun d => JString (Color_toHexString (Color d))) resolved)))
  else Ok JUndefined.

(** The [options] object literal of the full component. *)
Definition options `{ColorLibrary} (props : Props) : Result JsValue :=
  and_then (options_colors props) (fun resolved_colors =>
  Ok (JObject [
    ("colors", resolved_colors);
    ("theme", JObject [
      ("palette", of_optional_string (palette props))
    ]);
    ("chart", JObject [
      ("id", JString "dogchart");
      ("type", JString (ChartTypes_value (chartType props)));
      ("stacked", JBoolean (isStacked props));
      ("toolbar", JObject [
        ("show", JBoolean (showToolbar props))
      ]);
      ("events", JObject [
        ("mounted", JFunction SetMountedTrue);
        ("dataPointSelection", of_optional_callback (onDataPointSelection props));
        ("dataPointMouseEnter", of_optional_callback (onDataPointMouseEnter props));
        ("dataPointMouseLeave", of_optional_callback (onDataPointMouseLeave props))
      ])
    ]);
    ("plotOptions", JObject [
      ("bar", JObject [
        ("horizontal", JBoolean (isHorizontal props))
      ])
    ]);
    ("fill", JObject [
      ("opacity", JNumber (fillOpacity props));
      ("type", JString (FillType_value (fillType props)))
    ]);
    ("stroke", JObject [
      ("show", JBoolean (showStroke props));
      ("curve", JString (StrokeCurve_value (strokeCurve props)));
      ("width", JNumber (stroke props))
    ]);
    ("xaxis", JObject [
      ("type", JString "datetime");
      ("labels", JObject [
        ("show", JBoolean (showXaxis props))
      ])
    ]);
    ("yaxis", JObject [
      ("show", JBoolean (showYaxis props))
    ]);
    ("dataLabels", JObject [
      ("enabled", JBoolean false)
    ]);
    ("noData", JObject [
      ("text", JString "No Data")
    ]);
    ("legend", JObject [
      ("show", JBoolean (showLegend props))
    ])
  ])).

(** ** The component

    What one call of [Charting] hands to [Chart], and whether the
    placeholder frame that covers the chart until its first paint is
    shown. *)
Record ChartCall : Type := {
  chart_options : JsValue;
  chart_series : list Series;
  chart_type : ChartTypes;
  chart_width : option number;
  chart_height : option number
}.

Record Rendered : Type := {
  placeholder_visible : option bool;   (* [None]: no placeholder frame *)
  chart : ChartCall
}.

(** The two [useState] cells: the series ([None] before the first
    render) and the [mounted] flag. *)
Record Hooks : Type := {
  series_state : option (list Series);
  mounted_state : bool
}.

(** [React.useState(init)]: the argument has been evaluated by the time
    the hook is called; it is used on the first render only. *)
Definition useState {A} (cell : option A) (init : A) : A :=
  match cell with Some current => current | None => init end.

(** One render of the full component. *)
Definition Charting `{ColorLibrary} (props : Props) (hooks : Hooks)
  : M (Rendered * Hooks) :=
  init <- makeSeries (seriesCount props) (points props) ;;
  let series := useState (series_state hooks) init in
  let mounted := mounted_state hooks in
  opts <- lift (options props) ;;
  ret ({| placeholder_visible := Some (negb mounted);
          chart := {| chart_options := opts;
                      chart_series := series;
                      chart_type := chartType props;
                      chart_width := width props;
                      chart_height := height props |} |},
       {| series_state := Some series; mounted_state := mounted |}).

(** The effect with dependencies [[seriesCount, points]]:
    [setSeries(makeSeries(seriesCount, points))]. *)
Definition regenerate (props : Props) (hooks : Hooks) : M Hooks :=
  series <- makeSeries (seriesCount props) (points props) ;;
  ret {| series_state := Some series; mounted_state := mounted_state hooks |}.

(** The [mounted] event of the chart: [setMounted(true)]. *)
Definition run_callback (f : Callback) (hooks : Hooks) : Hooks :=
  match f with
  | SetMountedTrue =>
      {| series_state := series_state hooks; mounted_state := true |}
  | HostCallback _ => hooks
  end.

(** ** The reduced copy of the component

    The second copy of the file has its own [makeSeries], an empty
    [options] object and no placeholder frame. *)
Module Basic.

Definition genDateValue (n : Z) : M (list DateValue) :=
  a <- lift (Array_fill n 1) ;;
  Array_map
    (fun (_ : Z) (i : nat) =>
       now <- Date_now ;;
       r <- Math_random ;;
       ret {| date := Date_new (now - Z.of_nat i * hour_ms);
              value := genValue r |})
    a.

Definition makeSeries (seriesCount points : Z) : M (list Series) :=
  a <- lift (Array_fill seriesCount {| data := [] |}) ;;
  Array_map
    (fun (_ : Series) (_ : nat) =>
       g <- genDateValue points ;;
       ret {| data := map (fun v => (date v, value v)) g |})
    a.

(** [const options = {};] *)
Definition options (props : Props) : JsValue := JObject [].

Definition Charting (props : Props) (hooks : Hooks) : M (Rendered * Hooks) :=
  init <- makeSeries (seriesCount props) (points props) ;;
  let series := useState (series_state hooks) init in
  let mounted := mounted_state hooks in
  let opts := options props in
  ret ({| placeholder_visible := None;
          chart := {| chart_options := opts;
                      chart_series := series;
                      chart_type := chartType props;
                      chart_width := width props;
                      chart_height := height props |} |},
       {| series_state := Some series; mounted_state := mounted |}).

End Basic.

(** ** Property controls

    The declarations of [addPropertyControls]: for each control its
    kind and, where it has one, its [hidden] predicate over the props.
    Titles, defaults and bounds play no part below and are left out. *)
Inductive ControlType : Type :=
| ControlEnum | ControlBoolean | ControlNumber | ControlArray.

Record Control : Type := {
  control_type : ControlType;
  control_hidden : option (Props -> bool)
}.

Definition propertyControls : list (string * Control) := [
  ("chartType", {| control_type := ControlEnum; control_hidden := None |});
  ("isHorizontal",
     {| control_type := ControlBoolean;
        control_hidden := Some (fun props =>
          negb (String.eqb (ChartTypes_value (chartType props))
                           (ChartTypes_value Bar))) |});
  ("points", {| control_type := ControlNumber; control_hidden := None |});
  ("seriesCount", {| control_type := ControlNumber; control_hidden := None |});
  ("fillType", {| control_type := ControlEnum; control_hidden := None |});
  ("fillOpacity",
     {| control_type := ControlNumber;
        control_hidden := Some (fun props =>
          negb (String.eqb (FillType_value (fillType props)) "solid")) |});
  ("showStroke", {| control_type := ControlBoolean; control_hidden := None |});
  ("stroke",
     {| control_type := ControlNumber;
        control_hidden := Some (fun props =>
          Bool.eqb (showStroke props) false) |});
  ("strokeCurve", {| control_type := ControlEnum; control_hidden := None |});
  ("palette", {| control_type := ControlEnum; control_hidden := None |});
  ("showXaxis", {| control_type := ControlBoolean; control_hidden := None |});
  ("showYaxis", {| control_type := ControlBoolean; control_hidden := None |});
  ("showLegend", {| control_type := ControlBoolean; control_hidden := None |});
  ("showToolbar", {| control_type := ControlBoolean; control_hidden := None |});
  ("isStacked", {| control_type := ControlBoolean; control_hidden := None |});
  ("colors",
     {| control_type := ControlArray;
        control_hidden := Some (fun props =>
          negb (loose_eq (palette props) "custom")) |})
].

Fixpoint find_control (name : string) (table : list (string * Control))
  : option Control :=
  match table with
  | [] => None
  | (k, c) :: rest => if String.eqb name k then Some c else find_control name rest
  end.

(** Whether the host hides the control [name] for the props at hand: a
    control without a [hidden] predicate is always shown. *)
Definition hidden (name : string) (props : Props) : bool :=
  match find_control name propertyControls with
  | Some {| control_hidden := Some h |} => h props
  | _ => false
  end.

(** ** Sample inputs *)

(** [Charting.defaultProps] *)
Definition defaultProps : Props := {|
  width := Some (number_of_Z 800);
  height := Some (number_of_Z 600);
  chartType := Area;
  isHorizontal := false;
  points := 5;
  seriesCount := 1;
  fillType := Gradient;
  fillOpacity := S754_finite false 7205759403792794 (-53);   (* 0.8 *)
  stroke := number_of_Z 5;
  showStroke := true;
  strokeCurve := Smooth;
  palette := Some "palette1";
  showToolbar := true;
  showLegend := true;
  showXaxis := true;
  showYaxis := false;
  isStacked := false;
  colors := [];
  onDataPointSelection := None;
  onDataPointMouseEnter := None;
  onDataPointMouseLeave := None
|}.

(** A library that leaves each colour string as it is; it serves where
    a run needs some [ColorLibrary]. *)
Definition plain_colors : ColorLibrary :=
  {| ColorObject := string; Color := fun d => d; Color_toHexString := fun c => c |}.

(** Props that select the custom palette with the given colours. *)
Definition custom_props (entries : list string) : Props := {|
  width := width defaultProps;
  height := height defaultProps;
  chartType := chartType defaultProps;
  isHorizontal := isHorizontal defaultProps;
  points := points defaultProps;
  seriesCount := seriesCount defaultProps;
  fillType := fillType defaultProps;
  fillOpacity := fillOpacity defaultProps;
  stroke := stroke defaultProps;
  showStroke := showStroke defaultProps;
  strokeCurve := strokeCurve defaultProps;
  palette := Some "custom";
  showToolbar := showToolbar defaultProps;
  showLegend := showLegend defaultProps;
  showXaxis := showXaxis defaultProps;
  showYaxis := showYaxis defaultProps;
  isStacked := isStacked defaultProps;
  colors := entries;
  onDataPointSelection := None;
  onDataPointMouseEnter := None;
  onDataPointMouseLeave := None
|}.

(** Props for which each of the four conditional controls is hidden: a
    line chart with a pattern fill, no stroke and a named palette. *)
Definition plain_line_props : Props := {|
  width := width defaultProps;
  height := height defaultProps;
  chartType := Line;
  isHorizontal := isHorizontal defaultProps;
  points := points defaultProps;
  seriesCount := seriesCount defaultProps;
  fillType := Pattern;
  fillOpacity := fillOpacity defaultProps;
  stroke := stroke defaultProps;
  showStroke := false;
  strokeCurve := strokeCurve defaultProps;
  palette := Some "palette3";
  showToolbar := showToolbar defaultProps;
  showLegend := showLegend defaultProps;
  showXaxis := showXaxis defaultProps;
  showYaxis := showYaxis defaultProps;
  isStacked := isStacked defaultProps;
  colors := [];
  onDataPointSelection := None;
  onDataPointMouseEnter := None;
  onDataPointMouseLeave := None
|}.

(** The hooks of a component that has not rendered yet. *)
Definition fresh_hooks : Hooks :=
  {| series_state := None; mounted_state := false |}.

(** The draws of the sample worlds: [0.5] first, then the largest double
    below [1], then [+0] ever after. *)
Definition sample_draw (k : nat) : UnitDouble :=
  match k with
  | 0%nat => {| draw := S754_finite false 4503599627370496 (-53);
                draw_range := eq_refl |}
  | 1%nat => {| draw := S754_finite false 9007199254740991 (-53);
                draw_range := eq_refl |}
  | _ => {| draw := S754_zero false; draw_range := eq_refl |}
  end.

(** A world whose clock stands still while the series are generated. *)
Definition still_world : World :=
  {| dateNow := fun _ => 1700000000000; mathRandom := sample_draw;
     clockReads := 0; randomDraws := 0 |}.

(** A world whose clock has advanced by one millisecond between its
    first read and the later ones. *)
Definition ticking_world : World :=
  {| dateNow := fun k => match k with
                         | 0%nat => 1700000000000
                         | _ => 1700000000001
                         end;
     mathRandom := sample_draw;
     clockReads := 0; randomDraws := 0 |}.

(** ** Notions used in the statements *)

(** The world after [n] more reads of the clock and of the random
    source. *)
Definition advance (w : World) (n : nat) : World :=
  {| dateNow := dateNow w; mathRandom := mathRandom w;
     clockReads := (clockReads w + n)%nat;
     randomDraws := (randomDraws w + n)%nat |}.

(** The point a callback of [genDateValue] builds when it is given index
    [i] and makes the [j]-th next read of [w]. *)
Definition point_at (w : World) (i j : nat) : DateValue :=
  {| date := Date_new (dateNow w (clockReads w + j)%nat - Z.of_nat i * hour_ms);
     value := genValue (draw (mathRandom w (randomDraws w + j)%nat)) |}.

(** The series of [n] points generated from world [w] on. *)
Definition series_at (w : World) (n : nat) : Series :=
  {| data := map (fun v => (date v, value v))
                 (map (fun j => point_at w j j) (seq 0 n)) |}.

(** What is known of a shift record after [k] one-bit shifts of the
    mantissa [M]: the mantissa left is the quotient, and a set round
    bit means the dropped part is at least half of [2 ^ k]. *)
Definition shifted (M k : Z) (mrs : shr_record) : Prop :=
  0 <= shr_m mrs /\
  shr_m mrs * 2 ^ k <= M /\
  (shr_r mrs = true -> 2 * shr_m mrs * 2 ^ k + 2 ^ k <= 2 * M).

(** No character of [s] is a line terminator. *)
Fixpoint no_line_terminator (s : string) : bool :=
  match s with
  | EmptyString => true
  | String c rest => negb (is_line_terminator c) && no_line_terminator rest
  end.

(** The texts the pattern [/rgba?\(.*\d\)/] matches as a whole: "rgb("
    or "rgba(", any characters of one line, a digit and ")". *)
Inductive pattern_text : string -> Prop :=
| pattern_rgb (body : string) (d : ascii) :
    no_line_terminator body = true -> is_digit d = true ->
    pattern_text ("rgb(" ++ body ++ String d ")")
| pattern_rgba (body : string) (d : ascii) :
    no_line_terminator body = true -> is_digit d = true ->
    pattern_text ("rgba(" ++ body ++ String d ")").

(** Some part of [s] is matched by the pattern. *)
Definition occurs_in (s : string) : Prop :=
  exists pre m post, s = pre ++ m ++ post /\ pattern_text m.

(** Every [var(] entry of the list embeds an [rgb(...)] or [rgba(...)]
    expression. *)
Definition resolvable (entries : list string) : bool :=
  forallb (fun item =>
             negb (startsWith_var item) ||
             match regexp_exec item with Some _ => true | None => false end)
          entries.

(** ** Further notions used in the statements *)

(** The props with another list of colours. *)
Definition with_colors (props : Props) (entries : list string) : Props := {|
  width := width props;
  height := height props;
  points := points props;
  seriesCount := seriesCount props;
  chartType := chartType props;
  showToolbar := showToolbar props;
  showLegend := showLegend props;
  showXaxis := showXaxis props;
  showYaxis := showYaxis props;
  isStacked := isStacked props;
  isHorizontal := isHorizontal props;
  colors := entries;
  palette := palette props;
  showStroke := showStroke props;
  stroke := stroke props;
  strokeCurve := strokeCurve props;
  fillType := fillType props;
  fillOpacity := fillOpacity props;
  onDataPointSelection := onDataPointSelection props;
  onDataPointMouseEnter := onDataPointMouseEnter props;
  onDataPointMouseLeave := onDataPointMouseLeave props
|}.

(** The counts with which [makeSeries] throws: a series count that is
    no array length, or a point count that is none while at least one
    series is asked for. *)
Definition counts_rejected (seriesCount points : Z) : Prop :=
  seriesCount < 0 \/ 2 ^ 32 <= seriesCount \/
  (seriesCount <> 0 /\ (points < 0 \/ 2 ^ 32 <= points)).

(** The integer part of the exact product of a draw and 3000. *)
Definition floor_times_3000 (r : number) : Z :=
  match r with
  | S754_finite false m e => Z.shiftl (3000 * Zpos m) e
  | _ => 0
  end.

(** The draws below 250/3000, one twelfth. *)
Definition in_lower_twelfth (r : number) : bool :=
  match r with
  | S754_zero false => true
  | S754_finite false m e => 12 * Zpos m <? 2 ^ (- e)
  | _ => false
  end.

(** After [k] one-bit shifts of the mantissa [M] the mantissa left is
    the quotient of [M] by [2 ^ k]. *)
Definition shifted_exactly (M k : Z) (mrs : shr_record) : Prop :=
  0 <= shr_m mrs /\ shr_m mrs * 2 ^ k <= M < (shr_m mrs + 1) * 2 ^ k.

(** What can happen to a mounted component, one step at a time: a
    render that returns, a run of the effect that returns, and an event
    of the chart that calls one of the callbacks of the options. *)
Inductive component_step `{ColorLibrary} : Hooks * World -> Hooks * World -> Prop :=
| step_render (props : Props) (hooks hooks' : Hooks) (w w' : World) (r : Rendered) :
    Charting props hooks w = Ok ((r, hooks'), w') ->
    component_step (hooks, w) (hooks', w')
| step_effect (props : Props) (hooks hooks' : Hooks) (w w' : World) :
    regenerate props hooks w = Ok (hooks', w') ->
    component_step (hooks, w) (hooks', w')
| step_event (f : Callback) (hooks : Hooks) (w : World) :
    component_step (hooks, w) (run_callback f hooks, w).

(** Any number of such steps. *)
Inductive component_steps `{ColorLibrary} : Hooks * World -> Hooks * World -> Prop :=
| steps_none (state : Hooks * World) : component_steps state state
| steps_more (first second last : Hooks * World) :
    component_step first second ->
    component_steps second last ->
    component_steps first last.

(** * Facts about [makeSeries] *)

Lemma advance_0 w : advance w 0 = w.
Proof.
  destruct w; unfold advance; simpl. now rewrite !Nat.add_0_r.
Qed.

Lemma advance_advance w n m : advance (advance w n) m = advance w (n + m).
Proof.
  unfold advance; simpl. now rewrite !Nat.add_assoc.
Qed.

Lemma Array_fill_ok {A} (len : Z) (v : A) :
  0 <= len < 2 ^ 32 -> Array_fill len v = Ok (repeat v (Z.to_nat len)).
Proof.
  intros [H0 H1]. unfold Array_fill.
  apply Z.leb_le in H0. apply Z.ltb_lt in H1. now rewrite H0, H1.
Qed.

Lemma Array_fill_throws {A} (len : Z) (v : A) :
  len < 0 \/ 2 ^ 32 <= len -> Array_fill len v = Throw RangeError.
Proof.
  intros H. unfold Array_fill.
  destruct (Z.leb_spec 0 len), (Z.ltb_spec len (2 ^ 32)); simpl; try reflexivity; lia.
Qed.

(** A traversal keeps the length of the array. *)
Lemma Array_map_from_length {A B} (f : A -> nat -> M B) :
  forall a i w l w', Array_map_from f i a w = Ok (l, w') -> length l = length a.
Proof.
  induction a as [|d rest IH]; simpl; intros i w l w' H.
  - unfold ret in H. now inversion H.
  - unfold bind in H at 1. destruct (f d i w) as [[y w1]|e]; [|discriminate].
    unfold bind in H at 1.
    destruct (Array_map_from f (S i) rest w1) as [[ys w2]|e] eqn:E; [|discriminate].
    unfold ret in H. inversion H; subst. simpl. f_equal. eauto.
Qed.

(** The traversal of [genDateValue], started at index [i]. *)
Lemma gen_points_from (a : list Z) : forall (i : nat) (w : World),
  Array_map_from
    (fun (_ : Z) (i : nat) =>
       now <- Date_now ;;
       r <- Math_random ;;
       ret {| date := Date_new (now - Z.of_nat i * hour_ms);
              value := genValue r |})
    i a w
  = Ok (map (fun j => point_at w (i + j) j) (seq 0 (length a)),
        advance w (length a)).
Proof.
  induction a as [|d rest IH]; intros i w.
  - simpl. unfold ret. now rewrite advance_0.
  - cbn [Array_map_from length]. unfold bind at 1.
    unfold bind at 1, Date_now at 1. unfold bind at 1, Math_random at 1.
    unfold ret at 1. cbn [clockReads randomDraws dateNow mathRandom].
    unfold bind at 1. rewrite IH. unfold ret.
    change {| dateNow := dateNow w; mathRandom := mathRandom w;
              clockReads := S (clockReads w);
              randomDraws := S (randomDraws w) |}
      with (let w1 := {| dateNow := dateNow w; mathRandom := mathRandom w;
              clockReads := S (clockReads w);
              randomDraws := S (randomDraws w) |} in w1).
    assert (Hw : {| dateNow := dateNow w; mathRandom := mathRandom w;
                    clockReads := S (clockReads w);
                    randomDraws := S (randomDraws w) |} = advance w 1).
    { unfold advance. now rewrite !Nat.add_1_r. }
    cbv zeta. rewrite Hw, advance_advance. f_equal. f_equal.
    cbn [seq map]. f_equal.
    + unfold point_at. now rewrite !Nat.add_0_r.
    + rewrite <- seq_shift, map_map. apply map_ext. intros j.
      unfold point_at, advance; simpl.
      now rewrite !Nat.add_1_r, !Nat.add_succ_r.
Qed.

Lemma genDateValue_ok (n : Z) (w : World) :
  0 <= n < 2 ^ 32 ->
  genDateValue n w
  = Ok (map (fun j => point_at w j j) (seq 0 (Z.to_nat n)), advance w (Z.to_nat n)).
Proof.
  intros Hn. unfold genDateValue, bind at 1, lift.
  rewrite (Array_fill_ok n 1 Hn). unfold Array_map.
  rewrite gen_points_from, repeat_length. reflexivity.
Qed.

Lemma genDateValue_throws (n : Z) (w : World) :
  n < 0 \/ 2 ^ 32 <= n -> genDateValue n w = Throw RangeError.
Proof.
  intros Hn. unfold genDateValue, bind at 1, lift.
  now rewrite (Array_fill_throws n 1 Hn).
Qed.

(** The traversal of [makeSeries] when [points] is a valid length. *)
Lemma make_series_from (points : Z) (a : list Series) :
  0 <= points < 2 ^ 32 ->
  forall (i : nat) (w : World),
  Array_map_from
    (fun (_ : Series) (_ : nat) =>
       g <- genDateValue points ;;
       ret {| data := map (fun v => (date v, value v)) g |})
    i a w
  = Ok (map (fun k => series_at (advance w (k * Z.to_nat points)) (Z.to_nat points))
            (seq 0 (length a)),
        advance w (length a * Z.to_nat points)).
Proof.
  intros Hp. induction a as [|d rest IH]; intros i w.
  - simpl. unfold ret. now rewrite advance_0.
  - cbn [Array_map_from length]. unfold bind at 1. unfold bind at 1.
    rewrite (genDateValue_ok points w Hp). unfold ret at 1.
    unfold bind at 1. rewrite IH. unfold ret.
    rewrite advance_advance. f_equal. f_equal.
    cbn [seq map]. f_equal.
    + simpl. now rewrite advance_0.
    + rewrite <- seq_shift, map_map. apply map_ext. intros k.
      rewrite advance_advance. reflexivity.
Qed.

Lemma makeSeries_ok (seriesCount points : Z) (w : World) :
  0 <= seriesCount < 2 ^ 32 -> 0 <= points < 2 ^ 32 ->
  makeSeries seriesCount points w
  = Ok (map (fun k => series_at (advance w (k * Z.to_nat points)) (Z.to_nat points))
            (seq 0 (Z.to_nat seriesCount)),
        advance w (Z.to_nat seriesCount * Z.to_nat points)).
Proof.
  intros Hs Hp. unfold makeSeries, bind at 1, lift.
  rewrite (Array_fill_ok seriesCount _ Hs). unfold Array_map.
  rewrite (make_series_from points _ Hp), repeat_length. reflexivity.
Qed.

(** With no series requested the callback never runs, so [points] is
    never looked at. *)
Lemma makeSeries_zero (points : Z) (w : World) :
  makeSeries 0 points w = Ok ([], w).
Proof. reflexivity. Qed.

Lemma makeSeries_throws (seriesCount points : Z) (w : World) :
  seriesCount < 0 \/ 2 ^ 32 <= seriesCount \/
  (seriesCount <> 0 /\ (points < 0 \/ 2 ^ 32 <= points)) ->
  makeSeries seriesCount points w = Throw RangeError.
Proof.
  intros H. unfold makeSeries, bind at 1, lift.
  destruct (Z.ltb_spec seriesCount 0) as [Hneg|Hnn].
  { now rewrite Array_fill_throws by lia. }
  destruct (Z.leb_spec (2 ^ 32) seriesCount) as [Hbig|Hsmall].
  { now rewrite Array_fill_throws by lia. }
  destruct H as [H|[H|[Hnz Hp]]]; try lia.
  rewrite Array_fill_ok by lia. unfold Array_map.
  destruct (Z.to_nat seriesCount) as [|n] eqn:E; [lia|].
  cbn [repeat Array_map_from]. unfold bind at 1. unfold bind at 1.
  now rewrite (genDateValue_throws points w Hp).
Qed.

(** * Rounding of [Math.random() * 3000] *)

(** Iterating a step [Zpos p] times moves an invariant indexed by the
    number of steps taken. *)
Lemma iter_pos_invariant {A} (f : A -> A) (P : Z -> A -> Prop) :
  (forall k x, 0 <= k -> P k x -> P (k + 1) (f x)) ->
  forall p k x, 0 <= k -> P k x -> P (k + Zpos p) (iter_pos f p x).
Proof.
  intros Hstep. induction p as [p IH|p IH|]; intros k x Hk Hx; simpl.
  - replace (k + Zpos p~1) with (k + 1 + Zpos p + Zpos p) by lia.
    apply IH; [lia|]. apply IH; [lia|]. now apply Hstep.
  - replace (k + Zpos p~0) with (k + Zpos p + Zpos p) by lia.
    apply IH; [lia|]. now apply IH.
  - now apply Hstep.
Qed.

Lemma shr_1_shifted M k mrs :
  0 <= k -> shifted M k mrs -> shifted M (k + 1) (shr_1 mrs).
Proof.
  intros Hk (H0 & Hle & _). unfold shifted.
  rewrite Z.pow_add_r, Z.pow_1_r by lia.
  assert (Hp : 0 < 2 ^ k) by (apply Z.pow_pos_nonneg; lia).
  destruct mrs as [m r s]. cbn [shr_m shr_r] in H0, Hle.
  destruct m as [|[p|p|]|p]; cbn [shr_1 shr_m shr_r]; lia.
Qed.

Lemma shifted_start (M : Z) :
  0 <= M -> shifted M 0 (Build_shr_record M false false).
Proof.
  intros HM. unfold shifted; cbn [shr_m shr_r]. rewrite Z.pow_0_r.
  repeat split; lia.
Qed.

Lemma shr_shifted (M e n : Z) :
  0 <= M ->
  let '(mrs, e') := shr (Build_shr_record M false false) e n in
  e' = e + Z.max 0 n /\ shifted M (Z.max 0 n) mrs.
Proof.
  intros HM. destruct n as [|p|p]; cbn [shr].
  - split; [lia|]. now apply shifted_start.
  - split; [lia|].
    change (Z.max 0 (Zpos p)) with (0 + Zpos p).
    apply (iter_pos_invariant shr_1 (shifted M)).
    + intros k x Hk. now apply shr_1_shifted.
    + lia.
    + now apply shifted_start.
  - split; [lia|]. now apply shifted_start.
Qed.

Lemma round_nearest_even_bounds mrs :
  shr_m mrs <= round_nearest_even (shr_m mrs) (loc_of_shr_record mrs)
            <= shr_m mrs + (if shr_r mrs then 1 else 0).
Proof.
  destruct mrs as [m [|] [|]]; simpl; try lia.
  destruct (Z.even m); lia.
Qed.

Lemma digits2_pos_size p : digits2_pos p = Pos.size p.
Proof. induction p; simpl; congruence. Qed.

Lemma Zdigits2_upper (m : positive) : Zpos m < 2 ^ Zpos (digits2_pos m).
Proof.
  rewrite digits2_pos_size.
  pose proof (Pos.size_gt m) as H.
  apply Pos2Z.pos_lt_pos in H. rewrite Pos2Z.inj_pow in H. exact H.
Qed.

Lemma Zdigits2_le (m : positive) (k : Z) :
  0 <= k -> Zpos m < 2 ^ k -> Zpos (digits2_pos m) <= k.
Proof.
  intros Hk H. rewrite digits2_pos_size.
  pose proof (Pos.size_le m) as Hs.
  apply Pos2Z.pos_le_pos in Hs. rewrite Pos2Z.inj_pow in Hs.
  destruct (Z.le_gt_cases (Zpos (Pos.size m)) k) as [|Hgt]; [assumption|exfalso].
  assert (2 ^ (k + 1) <= 2 ^ Zpos (Pos.size m)) by (apply Z.pow_le_mono_r; lia).
  rewrite Z.pow_add_r in H0 by lia. change (Zpos (2 * m)) with (2 * Zpos m) in Hs.
  lia.
Qed.


Lemma fexp_le (x b : Z) :
  x <= b + prec -> -1074 <= b -> fexp prec emax x <= b.
Proof. unfold fexp, emin, prec, emax. lia. Qed.

Lemma Zdigits2_nonneg_le (m k : Z) :
  0 <= m -> 0 <= k -> m < 2 ^ k -> Zdigits2 m <= k.
Proof.
  intros Hm Hk H. destruct m as [|p|p]; simpl; try lia.
  now apply Zdigits2_le.
Qed.

(** One rounding step: a mantissa shifted down by [fexp] and rounded to
    nearest stays below any bound it had half a unit of room under. *)
Lemma shr_fexp_round_below (M E b : Z) :
  0 <= M -> E <= -41 -> 0 < b <= 2 ^ 12 ->
  (forall k, 0 <= k <= -41 - E -> 2 * M + 2 ^ k < 2 * b * 2 ^ (- E)) ->
  let '(mrs, e1) := shr_fexp prec emax M E loc_Exact in
  E <= e1 <= -41 /\
  0 <= round_nearest_even (shr_m mrs) (loc_of_shr_record mrs) < b * 2 ^ (- e1).
Proof.
  intros HM HE Hb Hroom. unfold shr_fexp. cbn [shr_record_of_loc].
  set (n := fexp prec emax (Zdigits2 M + E) - E).
  pose proof (shr_shifted M E n HM) as Hs.
  destruct (shr (Build_shr_record M false false) E n) as [mrs e1].
  destruct Hs as [He1 (Hm0 & Hle & Hr)].
  assert (Hpow : 0 < 2 ^ (- E)) by (apply Z.pow_pos_nonneg; lia).
  assert (HMb : M < 2 ^ (12 - E)).
  { replace (12 - E) with (12 + - E) by lia. rewrite Z.pow_add_r by lia.
    pose proof (Hroom 0 ltac:(lia)) as H0. rewrite Z.pow_0_r in H0. nia. }
  assert (Hn : n <= -41 - E).
  { unfold n. apply Z.le_sub_le_add_r. replace (-41 - E + E) with (-41) by lia.
    apply fexp_le; [|lia].
    pose proof (Zdigits2_nonneg_le M (12 - E) HM ltac:(lia) HMb). unfold prec. lia. }
  set (k := Z.max 0 n) in *.
  assert (Hk : 0 <= k <= -41 - E) by (unfold k; lia).
  split; [lia|].
  pose proof (round_nearest_even_bounds mrs) as Hrne.
  set (m2 := round_nearest_even (shr_m mrs) (loc_of_shr_record mrs)) in *.
  split; [lia|].
  assert (Hsplit : 2 ^ (- E) = 2 ^ (- e1) * 2 ^ k).
  { rewrite <- Z.pow_add_r by lia. f_equal. lia. }
  assert (Hk2 : 0 < 2 ^ k) by (apply Z.pow_pos_nonneg; lia).
  pose proof (Hroom k Hk) as Hrk. rewrite Hsplit in Hrk.
  apply Z.mul_lt_mono_pos_r with (p := 2 * 2 ^ k); [lia|].
  destruct (shr_r mrs).
  - specialize (Hr eq_refl). nia.
  - nia.
Qed.


(** Rounding a positive value that has half a unit of room under the
    integer [b] gives a number whose integer part is below [b]. *)
Lemma binary_round_aux_below (M : positive) (E b : Z) :
  E <= -41 -> 0 < b <= 2 ^ 12 ->
  (forall k, 0 <= k <= -41 - E -> 2 * Zpos M + 2 ^ k < 2 * b * 2 ^ (- E)) ->
  0 <= truncate (binary_round_aux prec emax false (Zpos M) E loc_Exact) < b.
Proof.
  intros HE Hb Hroom. unfold binary_round_aux.
  pose proof (shr_fexp_round_below (Zpos M) E b ltac:(lia) HE Hb Hroom) as H1.
  destruct (shr_fexp prec emax (Zpos M) E loc_Exact) as [mrs1 e1].
  destruct H1 as [He1 Hm2].
  set (m2 := round_nearest_even (shr_m mrs1) (loc_of_shr_record mrs1)) in *.
  assert (Hp1 : 0 < 2 ^ (- e1)) by (apply Z.pow_pos_nonneg; lia).
  unfold shr_fexp. cbn [shr_record_of_loc].
  set (n := fexp prec emax (Zdigits2 m2 + e1) - e1).
  pose proof (shr_shifted m2 e1 n ltac:(lia)) as Hs.
  destruct (shr (Build_shr_record m2 false false) e1 n) as [mrs3 e3].
  destruct Hs as [He3 (Hm0 & Hle & _)].
  assert (Hn : n <= -41 - e1).
  { unfold n. apply Z.le_sub_le_add_r. replace (-41 - e1 + e1) with (-41) by lia.
    apply fexp_le; [|lia].
    assert (m2 < 2 ^ (12 - e1)).
    { replace (12 - e1) with (12 + - e1) by lia. rewrite Z.pow_add_r by lia. nia. }
    pose proof (Zdigits2_nonneg_le m2 (12 - e1) ltac:(lia) ltac:(lia) H).
    unfold prec. lia. }
  set (k := Z.max 0 n) in *.
  assert (Hk2 : 0 < 2 ^ k) by (apply Z.pow_pos_nonneg; lia).
  assert (Hp3 : 0 < 2 ^ (- e3)) by (apply Z.pow_pos_nonneg; lia).
  assert (Hsplit : 2 ^ (- e1) = 2 ^ (- e3) * 2 ^ k).
  { rewrite <- Z.pow_add_r by lia. f_equal. lia. }
  destruct (shr_m mrs3) as [|m3|m3] eqn:Em3; cbn [truncate]; try lia.
  replace (e3 <=? emax - prec) with true
    by (symmetry; apply Z.leb_le; unfold emax, prec; lia).
  cbn [truncate]. rewrite Z.shiftl_div_pow2 by lia.
  split.
  - apply Z.div_pos; lia.
  - apply Z.div_lt_upper_bound; [lia|]. nia.
Qed.

Lemma bounded_mantissa (m : positive) (e : Z) :
  bounded prec emax m e = true -> Zpos m < 2 ^ 53 /\ -1074 <= e.
Proof.
  unfold bounded, canonical_mantissa. intros H.
  apply andb_prop in H. destruct H as [H _]. apply Z.eqb_eq in H.
  unfold fexp, emin, prec, emax in H.
  pose proof (Zdigits2_upper m) as Hu.
  split; [|lia].
  eapply Z.lt_le_trans; [exact Hu|]. apply Z.pow_le_mono_r; lia.
Qed.

(** [(Math.random() * 3000) | 0] is an integer of [[0, 3000)]. *)
Lemma random_times_3000 (r : UnitDouble) :
  0 <= bitor_zero (number_mul (draw r) n3000) < 3000.
Proof.
  assert (Ht : 0 <= truncate (number_mul (draw r) n3000) < 3000).
  { destruct r as [x Hx]. cbn [draw].
    destruct x as [[|]|s|  |[|] m e]; try discriminate Hx; cbn; try lia.
    cbn [in_unit_interval] in Hx.
    apply andb_prop in Hx. destruct Hx as [Hx Hlt].
    apply andb_prop in Hx. destruct Hx as [Hb He].
    apply Z.ltb_lt in Hlt, He.
    destruct (bounded_mantissa m e Hb) as [Hm53 Hemin].
    change (SFmul prec emax (S754_finite false m e) n3000)
      with (binary_round_aux prec emax false
              (Zpos (m * 6597069766656000)) (e + -41) loc_Exact).
    apply binary_round_aux_below; [lia | lia |].
    intros k Hk. rewrite Pos2Z.inj_mul.
    replace (- (e + -41)) with (- e + 41) by lia.
    rewrite Z.pow_add_r by lia.
    assert (Hpk : 2 ^ k <= 2 ^ (- e)) by (apply Z.pow_le_mono_r; lia).
    change (2 ^ 41) with 2199023255552.
    destruct (Z.le_gt_cases (- e) 53) as [Hsmall|Hbig].
    - assert (2 ^ (- e) <= 2 ^ 53) by (apply Z.pow_le_mono_r; lia).
      change (2 ^ 53) with 9007199254740992 in *. nia.
    - assert (Hhalf : 2 ^ (- e) = 2 * 2 ^ (- e - 1)).
      { rewrite <- Z.pow_succ_r by lia. f_equal. lia. }
      assert (2 ^ 53 <= 2 ^ (- e - 1)) by (apply Z.pow_le_mono_r; lia).
      change (2 ^ 53) with 9007199254740992 in *. nia. }
  unfold bitor_zero, ToInt32. rewrite Z.lor_0_r.
  rewrite Z.mod_small by (change (2 ^ 32) with 4294967296; lia).
  replace (truncate (number_mul (draw r) n3000) <? 2 ^ 31) with true; [exact Ht|].
  symmetry. apply Z.ltb_lt. change (2 ^ 31) with 2147483648. lia.
Qed.

Lemma genValue_range (r : UnitDouble) : 250 <= genValue (draw r) < 3000.
Proof.
  unfold genValue. pose proof (random_times_3000 r). lia.
Qed.


(** * The colour pattern *)

Lemma append_assoc (a b c : string) : (a ++ b) ++ c = a ++ (b ++ c).
Proof. induction a; simpl; congruence. Qed.

Lemma match_tail_sound (s m : string) :
  match_tail s = Some m ->
  exists body d rest,
    m = body ++ String d ")" /\ s = m ++ rest /\
    no_line_terminator body = true /\ is_digit d = true.
Proof.
  revert m. induction s as [|c s IH]; simpl; intros m H; [discriminate|].
  destruct (is_line_terminator c) eqn:Ec.
  - destruct (is_digit c) eqn:Ed; [|discriminate].
    destruct s as [|c' s']; [discriminate|].
    destruct (Ascii.eqb_spec c' ")") as [->|Hne].
    + inversion H; subst. exists EmptyString, c, s'. simpl. auto.
    + exfalso. revert H. clear -Hne.
      destruct c' as [[] [] [] [] [] [] [] []]; try discriminate.
      contradiction.
  - destruct (match_tail s) as [m'|] eqn:Em.
    + inversion H; subst.
      destruct (IH m' eq_refl) as (body & d & rest & -> & -> & Hb & Hd).
      exists (String c body), d, rest. simpl. rewrite Ec, Hb. auto.
    + destruct (is_digit c) eqn:Ed; [|discriminate].
      destruct s as [|c' s']; [discriminate|].
      destruct (Ascii.eqb_spec c' ")") as [->|Hne].
      * inversion H; subst. exists EmptyString, c, s'. simpl. auto.
      * exfalso. revert H. clear -Hne.
        destruct c' as [[] [] [] [] [] [] [] []]; try discriminate.
        contradiction.
Qed.

Lemma match_tail_complete (body : string) (d : ascii) (rest : string) :
  no_line_terminator body = true -> is_digit d = true ->
  exists m, match_tail (body ++ String d (String ")" rest)) = Some m.
Proof.
  intros Hb Hd. induction body as [|c body IH]; simpl.
  - destruct (is_line_terminator d); [|destruct (match_tail rest)];
      rewrite ?Hd; eexists; reflexivity.
  - simpl in Hb. apply andb_prop in Hb. destruct Hb as [Hc Hb].
    apply negb_true_iff in Hc. rewrite Hc.
    destruct (IH Hb) as [m ->]. eexists; reflexivity.
Qed.

Lemma match_here_sound (s m : string) :
  match_here s = Some m -> exists rest, s = m ++ rest /\ pattern_text m.
Proof.
  unfold match_here. intros H.
  destruct s as [|c1 [|c2 [|c3 [|c4 s4]]]]; try discriminate;
    try (destruct c1 as [[] [] [] [] [] [] [] []]; discriminate).
  - destruct c1 as [[] [] [] [] [] [] [] []]; try discriminate;
    destruct c2 as [[] [] [] [] [] [] [] []]; discriminate.
  - destruct c1 as [[] [] [] [] [] [] [] []]; try discriminate;
    destruct c2 as [[] [] [] [] [] [] [] []]; try discriminate;
    destruct c3 as [[] [] [] [] [] [] [] []]; discriminate.
  - destruct c1 as [[] [] [] [] [] [] [] []]; try discriminate;
    destruct c2 as [[] [] [] [] [] [] [] []]; try discriminate;
    destruct c3 as [[] [] [] [] [] [] [] []]; try discriminate;
    destruct c4 as [[] [] [] [] [] [] [] []]; try discriminate.
    + (* rgba *) destruct s4 as [|c5 s5]; [discriminate|].
      destruct c5 as [[] [] [] [] [] [] [] []]; try discriminate.
      destruct (match_tail s5) as [t|] eqn:Et; [|discriminate].
      inversion H; subst.
      destruct (match_tail_sound _ _ Et) as (body & d & rest & -> & -> & Hb & Hd).
      exists rest. split; [reflexivity|]. now apply pattern_rgba.
    + (* rgb( *)
      destruct (match_tail s4) as [t|] eqn:Et; [|discriminate].
      inversion H; subst.
      destruct (match_tail_sound _ _ Et) as (body & d & rest & -> & -> & Hb & Hd).
      exists rest. split; [reflexivity|]. now apply pattern_rgb.
Qed.

Lemma match_here_complete (m rest : string) :
  pattern_text m -> exists m', match_here (m ++ rest) = Some m'.
Proof.
  intros [body d Hb Hd|body d Hb Hd].
  - change (("rgb(" ++ body ++ String d ")") ++ rest)
      with ("rgb(" ++ ((body ++ String d ")") ++ rest)).
    rewrite append_assoc. cbn [append match_here].
    destruct (match_tail_complete body d rest Hb Hd) as [t ->].
    eexists; reflexivity.
  - change (("rgba(" ++ body ++ String d ")") ++ rest)
      with ("rgba(" ++ ((body ++ String d ")") ++ rest)).
    rewrite append_assoc. cbn [append match_here].
    destruct (match_tail_complete body d rest Hb Hd) as [t ->].
    eexists; reflexivity.
Qed.

Lemma regexp_exec_sound (s m : string) :
  regexp_exec s = Some m ->
  exists pre post, s = pre ++ m ++ post /\ pattern_text m.
Proof.
  induction s as [|c s IH]; cbn [regexp_exec]; intros H.
  - cbn in H. discriminate.
  - destruct (match_here (String c s)) as [t|] eqn:Eh.
    + inversion H; subst.
      destruct (match_here_sound _ _ Eh) as (rest & Hs & Hp).
      exists EmptyString, rest. auto.
    + destruct (IH H) as (pre & post & -> & Hp).
      exists (String c pre), post. auto.
Qed.

Lemma regexp_exec_complete (pre m post : string) :
  pattern_text m -> exists m', regexp_exec (pre ++ m ++ post) = Some m'.
Proof.
  intros Hp. induction pre as [|c pre IH].
  - cbn [append]. destruct (match_here_complete m post Hp) as [t Ht].
    destruct (m ++ post) as [|c s] eqn:E; cbn [regexp_exec]; rewrite Ht;
      eexists; reflexivity.
  - cbn [append regexp_exec].
    destruct (match_here (String c (pre ++ m ++ post))); [eexists; reflexivity|].
    exact IH.
Qed.

Lemma regexp_exec_None (s : string) :
  regexp_exec s = None <-> ~ occurs_in s.
Proof.
  split.
  - intros HN (pre & m & post & -> & Hp).
    destruct (regexp_exec_complete pre m post Hp) as [t Ht]. congruence.
  - intros Hno. destruct (regexp_exec s) as [m|] eqn:E; [|reflexivity].
    exfalso. apply Hno. destruct (regexp_exec_sound _ _ E) as (pre & post & Hs & Hp).
    now exists pre, m, post.
Qed.


(** * The generated series *)

(** A run of [makeSeries] that returns was given lengths the [Array]
    constructor accepts, and returns the series read off the world in
    order. *)
Lemma makeSeries_inv (seriesCount points : Z) (w w' : World) (l : list Series) :
  makeSeries seriesCount points w = Ok (l, w') ->
  0 <= seriesCount < 2 ^ 32 /\
  (seriesCount = 0 \/ 0 <= points < 2 ^ 32) /\
  l = map (fun k => series_at (advance w (k * Z.to_nat points)) (Z.to_nat points))
          (seq 0 (Z.to_nat seriesCount)).
Proof.
  intros H.
  destruct (Z.eq_dec seriesCount 0) as [->|Hnz].
  { rewrite makeSeries_zero in H. inversion H; subst. repeat split; auto; lia. }
  destruct (Z_lt_le_dec seriesCount 0) as [Hneg|Hnn].
  { rewrite makeSeries_throws in H by lia. discriminate H. }
  destruct (Z_lt_le_dec seriesCount (2 ^ 32)) as [Hsmall|Hbig].
  2: { rewrite makeSeries_throws in H by lia. discriminate H. }
  destruct (Z_lt_le_dec points 0) as [Hpneg|Hpnn].
  { rewrite makeSeries_throws in H by lia. discriminate H. }
  destruct (Z_lt_le_dec points (2 ^ 32)) as [Hpsmall|Hpbig].
  2: { rewrite makeSeries_throws in H by lia. discriminate H. }
  rewrite makeSeries_ok in H by lia. inversion H; subst.
  repeat split; auto; lia.
Qed.

Lemma nth_error_map_seq {A} (f : nat -> A) (n k : nat) (x : A) :
  nth_error (map f (seq 0 n)) k = Some x -> (k < n)%nat /\ x = f k.
Proof.
  intros H.
  assert (Hk : (k < length (map f (seq 0 n)))%nat)
    by (apply nth_error_Some; congruence).
  rewrite length_map, length_seq in Hk.
  split; [exact Hk|].
  rewrite nth_error_map, nth_error_seq in H.
  apply Nat.ltb_lt in Hk. rewrite Hk in H. simpl in H. congruence.
Qed.

Lemma series_at_length (w : World) (n : nat) : length (data (series_at w n)) = n.
Proof. unfold series_at; simpl. now rewrite !length_map, length_seq. Qed.

Lemma Date_new_valid (v : Z) :
  Z.abs v <= max_time -> Date_new v = ValidDate v.
Proof.
  intros H. unfold Date_new. apply Z.leb_le in H. now rewrite H.
Qed.

Lemma Date_new_invalid (v : Z) :
  max_time < Z.abs v -> Date_new v = InvalidDate.
Proof.
  intros H. unfold Date_new.
  destruct (Z.leb_spec (Z.abs v) max_time); [lia | reflexivity].
Qed.

Lemma series_at_nth (w : World) (n i : nat) (p : Date * Z) :
  nth_error (data (series_at w n)) i = Some p ->
  (i < n)%nat /\
  fst p = Date_new (dateNow w (clockReads w + i)%nat - Z.of_nat i * hour_ms) /\
  snd p = genValue (draw (mathRandom w (randomDraws w + i)%nat)).
Proof.
  unfold series_at; cbn [data]. rewrite map_map. intros H.
  apply nth_error_map_seq in H. destruct H as [Hi ->]. auto.
Qed.

(** C1, as amended: for every seriesCount and pointCount that the Array
    constructor accepts, that is integers from 0 up to 2^32 - 1,
    makeSeries returns exactly seriesCount series, each with exactly
    pointCount points; makeSeries(0, n) returns the empty series set for
    any n, and makeSeries(n, 0) returns n series with empty point
    lists. *)
Theorem makeSeries_shape (seriesCount pointCount : Z) (w : World) :
  0 <= seriesCount < 2 ^ 32 ->
  0 <= pointCount < 2 ^ 32 ->
  (exists l w',
      makeSeries seriesCount pointCount w = Ok (l, w') /\
      Z.of_nat (length l) = seriesCount /\
      Forall (fun s => Z.of_nat (length (data s)) = pointCount) l /\
      (pointCount = 0 -> Forall (fun s => data s = []) l)) /\
  (forall n, makeSeries 0 n w = Ok ([], w)).
Proof.
  intros Hs Hp. split; [|intros n; apply makeSeries_zero].
  eexists. eexists. split; [apply makeSeries_ok; assumption|].
  split; [rewrite length_map, length_seq; lia|].
  split.
  - apply Forall_forall. intros s Hin. apply in_map_iff in Hin.
    destruct Hin as (k & <- & _). rewrite series_at_length. lia.
  - intros ->. apply Forall_forall. intros s Hin. apply in_map_iff in Hin.
    destruct Hin as (k & <- & _). reflexivity.
Qed.

Lemma makeSeries_shape_witness :
  (exists l w',
      makeSeries 2 3 still_world = Ok (l, w') /\
      Z.of_nat (length l) = 2 /\
      Forall (fun s => Z.of_nat (length (data s)) = 3) l /\
      (3 = 0 -> Forall (fun s => data s = []) l)) /\
  (forall n, makeSeries 0 n still_world = Ok ([], still_world)).
Proof.
  apply (makeSeries_shape 2 3 still_world); lia.
Defined.

(** C1 fails as stated: 2^32 is a non-negative seriesCount, and
    [Array(4294967296)] throws a RangeError, so no series set is
    returned. *)
Lemma makeSeries_shape_fails_beyond_array_limit :
  0 <= 4294967296 /\ 0 <= 3 /\
  makeSeries 4294967296 3 still_world = Throw RangeError /\
  ~ (exists l w',
        makeSeries 4294967296 3 still_world = Ok (l, w') /\
        Z.of_nat (length l) = 4294967296).
Proof.
  assert (H : makeSeries 4294967296 3 still_world = Throw RangeError)
    by (apply makeSeries_throws; lia).
  repeat split; try lia; try exact H.
  intros (l & w' & Hrun & _). rewrite H in Hrun. discriminate Hrun.
Qed.

(** C2, as amended: in the series at position k of a returned set, the
    point at index i carries new Date(v), where v is the reading of the
    clock made when that point was built, minus i hours: the date with
    time value v where v lies within 8.64e15 ms of the epoch, and the
    invalid date otherwise.  When the clock shows one and the same time
    T at all reads of that series, two neighbouring points whose values
    T minus i hours lie within that range carry exactly these time
    values, so that the later timestamp is exactly one hour before the
    earlier one and strictly less. *)
Theorem makeSeries_timestamps
    (seriesCount pointCount : Z) (w w' : World) (l : list Series)
    (k : nat) (s : Series) :
  makeSeries seriesCount pointCount w = Ok (l, w') ->
  nth_error l k = Some s ->
  let reading i := dateNow w (clockReads w + k * Z.to_nat pointCount + i)%nat in
  (forall i p, nth_error (data s) i = Some p ->
               fst p = Date_new (reading i - Z.of_nat i * hour_ms)) /\
  (forall T, (forall i, (i < length (data s))%nat -> reading i = T) ->
     forall i p q,
       nth_error (data s) i = Some p ->
       nth_error (data s) (S i) = Some q ->
       Z.abs (T - Z.of_nat i * hour_ms) <= max_time ->
       Z.abs (T - Z.of_nat (S i) * hour_ms) <= max_time ->
       exists tp tq,
         fst p = ValidDate tp /\
         fst q = ValidDate tq /\
         tp = T - Z.of_nat i * hour_ms /\
         tq = tp - hour_ms /\
         tq < tp).
Proof.
  intros Hrun Hk reading.
  apply makeSeries_inv in Hrun. destruct Hrun as (_ & _ & ->).
  apply nth_error_map_seq in Hk. destruct Hk as [_ ->].
  assert (Hpoint : forall i p,
             nth_error (data (series_at (advance w (k * Z.to_nat pointCount))
                                        (Z.to_nat pointCount))) i = Some p ->
             fst p = Date_new (reading i - Z.of_nat i * hour_ms)).
  { intros i p Hp. apply series_at_nth in Hp. destruct Hp as (_ & Hd & _).
    exact Hd. }
  split; [exact Hpoint|].
  intros T HT i p q Hp Hq Hin HSin.
  assert (Hi : (i < length (data (series_at (advance w (k * Z.to_nat pointCount))
                                            (Z.to_nat pointCount))))%nat)
    by (apply nth_error_Some; congruence).
  assert (HSi : (S i < length (data (series_at (advance w (k * Z.to_nat pointCount))
                                               (Z.to_nat pointCount))))%nat)
    by (apply nth_error_Some; congruence).
  exists (T - Z.of_nat i * hour_ms), (T - Z.of_nat (S i) * hour_ms).
  rewrite (Hpoint i p Hp), (Hpoint (S i) q Hq), (HT i Hi), (HT (S i) HSi).
  rewrite (Date_new_valid _ Hin), (Date_new_valid _ HSin).
  unfold hour_ms. repeat split; lia.
Qed.

Lemma makeSeries_timestamps_witness :
  let reading i := dateNow still_world (clockReads still_world + 1 * Z.to_nat 3 + i)%nat in
  (forall i p, nth_error (data (series_at (advance still_world 3) 3)) i = Some p ->
               fst p = Date_new (reading i - Z.of_nat i * hour_ms)) /\
  (forall T, (forall i, (i < length (data (series_at (advance still_world 3) 3)))%nat ->
                        reading i = T) ->
     forall i p q,
       nth_error (data (series_at (advance still_world 3) 3)) i = Some p ->
       nth_error (data (series_at (advance still_world 3) 3)) (S i) = Some q ->
       Z.abs (T - Z.of_nat i * hour_ms) <= max_time ->
       Z.abs (T - Z.of_nat (S i) * hour_ms) <= max_time ->
       exists tp tq,
         fst p = ValidDate tp /\
         fst q = ValidDate tq /\
         tp = T - Z.of_nat i * hour_ms /\
         tq = tp - hour_ms /\
         tq < tp).
Proof.
  apply (makeSeries_timestamps 2 3 still_world (advance still_world 6)
           [series_at still_world 3; series_at (advance still_world 3) 3]
           1 (series_at (advance still_world 3) 3)).
  - rewrite makeSeries_ok by lia. reflexivity.
  - reflexivity.
Defined.

(** C2 fails as stated: the clock is read anew for each point, so once
    it advances by a millisecond between two reads, the second
    timestamp is one millisecond less than an hour before the first. *)
Lemma timestamps_not_hourly_when_clock_ticks :
  makeSeries 1 2 ticking_world
  = Ok ([{| data := [(ValidDate 1700000000000, 1500);
                     (ValidDate 1699996400001, 2999)] |}],
        advance ticking_world 2) /\
  1699996400001 <> 1700000000000 - hour_ms /\
  ~ (exists currentTime,
        1700000000000 = currentTime - 0 * hour_ms /\
        1699996400001 = currentTime - 1 * hour_ms).
Proof.
  split; [rewrite makeSeries_ok by lia; reflexivity|].
  unfold hour_ms. split; [lia|].
  intros (t & H0 & H1). lia.
Qed.

(** C3: every value of every series that makeSeries returns lies in
    [250, 3000); this holds for all counts, the non-negative ones in
    particular. *)
Theorem makeSeries_values_in_range
    (seriesCount pointCount : Z) (w w' : World) (l : list Series) :
  makeSeries seriesCount pointCount w = Ok (l, w') ->
  forall s p, In s l -> In p (data s) -> 250 <= snd p < 3000.
Proof.
  intros Hrun s p Hs Hp.
  apply makeSeries_inv in Hrun. destruct Hrun as (_ & _ & ->).
  apply in_map_iff in Hs. destruct Hs as (k & <- & _).
  apply In_nth_error in Hp. destruct Hp as [i Hi].
  apply series_at_nth in Hi. destruct Hi as (_ & _ & ->).
  apply genValue_range.
Qed.

Lemma makeSeries_values_in_range_witness :
  makeSeries 2 3 still_world
  = Ok ([series_at still_world 3; series_at (advance still_world 3) 3],
        advance still_world 6) /\
  250 <= snd (ValidDate 1699996400000, 2999) < 3000.
Proof.
  assert (Hrun : makeSeries 2 3 still_world
                 = Ok ([series_at still_world 3; series_at (advance still_world 3) 3],
                       advance still_world 6))
    by (rewrite makeSeries_ok by lia; reflexivity).
  split; [exact Hrun|].
  apply (makeSeries_values_in_range 2 3 still_world _ _ Hrun
           (series_at still_world 3) (ValidDate 1699996400000, 2999)).
  - left. reflexivity.
  - right. left. reflexivity.
Defined.

(** C10, as amended: for every negative seriesCount makeSeries throws a
    RangeError, and so it does for every negative pointCount once
    seriesCount is not 0; with seriesCount 0 the point generator never
    runs and the empty series set is returned whatever pointCount is.
    No count is clamped and no partial series set is returned. *)
Theorem makeSeries_negative (seriesCount pointCount : Z) (w : World) :
  seriesCount < 0 \/ pointCount < 0 ->
  makeSeries seriesCount pointCount w
  = if seriesCount =? 0 then Ok ([], w) else Throw RangeError.
Proof.
  intros H. destruct (Z.eqb_spec seriesCount 0) as [->|Hnz].
  - apply makeSeries_zero.
  - apply makeSeries_throws. lia.
Qed.

Lemma makeSeries_negative_witness :
  makeSeries 3 (-2) still_world
  = if 3 =? 0 then Ok ([], still_world) else Throw RangeError.
Proof.
  apply (makeSeries_negative 3 (-2) still_world). right. lia.
Defined.

(** C10 fails as stated: with seriesCount 0 and the negative pointCount
    -1 nothing is thrown; the empty series set is returned. *)
Lemma makeSeries_zero_series_negative_points :
  -1 < 0 /\ makeSeries 0 (-1) still_world = Ok ([], still_world).
Proof.
  split; [lia | reflexivity].
Qed.

(** * The options object *)

Lemma loose_eq_true (p : option string) (s : string) :
  loose_eq p s = true <-> p = Some s.
Proof.
  destruct p as [x|]; simpl.
  - rewrite String.eqb_eq. split; congruence.
  - split; discriminate.
Qed.

(** The guard [colors.length > 0 && palette == "custom"]. *)
Lemma colors_guard (props : Props) :
  (0 <? length (colors props))%nat && loose_eq (palette props) "custom" = true
  <-> palette props = Some "custom" /\ colors props <> [].
Proof.
  rewrite andb_true_iff, loose_eq_true, Nat.ltb_lt.
  destruct (colors props); simpl; split; intros [H1 H2]; split;
    try assumption; try lia; try congruence.
Qed.

Lemma map_result_length {A B} (f : A -> Result B) (a : list A) (l : list B) :
  map_result f a = Ok l -> length l = length a.
Proof.
  revert l. induction a as [|x rest IH]; simpl; intros l H.
  - inversion H. reflexivity.
  - destruct (f x) as [y|e]; simpl in H; [|discriminate].
    destruct (map_result f rest) as [ys|e]; simpl in H; [|discriminate].
    inversion H. simpl. f_equal. now apply IH.
Qed.

(** What the first callback of [colors.map] does with an entry. *)
Lemma resolve_color_spec (item : string) :
  resolve_color item
  = if startsWith_var item
    then match regexp_exec item with
         | Some m => Ok m
         | None => Throw TypeError
         end
    else Ok item.
Proof.
  unfold resolve_color, String_match.
  destruct (startsWith_var item); [|reflexivity].
  destruct (regexp_exec item); reflexivity.
Qed.

Lemma map_result_resolvable (entries : list string) :
  resolvable entries = true ->
  exists resolved, map_result resolve_color entries = Ok resolved.
Proof.
  induction entries as [|item rest IH]; simpl; intros H.
  - now exists [].
  - apply andb_prop in H. destruct H as [Hitem Hrest].
    destruct (IH Hrest) as [ys Hys]. rewrite Hys.
    rewrite resolve_color_spec.
    destruct (startsWith_var item); simpl in *.
    + destruct (regexp_exec item) as [m|]; [|discriminate].
      simpl. now exists (m :: ys).
    + now exists (item :: ys).
Qed.

(** C4: the options carry a resolved colour list, the hex string of
    each resolved entry in order, exactly when the palette is "custom"
    and the colour list is non-empty: for such a config whose [var(]
    entries all embed an rgb or rgba expression the projection returns
    options with that list, for every other config it returns options
    whose colors property is undefined, and the palette identifier is
    left to the renderer under theme.palette. *)
Theorem options_colors_gate `{ColorLibrary} (props : Props) :
  let custom := palette props = Some "custom" /\ colors props <> [] in
  (forall o, options props = Ok o ->
     (is_array o.["colors"] = true <-> custom) /\
     (custom -> exists resolved,
         map_result resolve_color (colors props) = Ok resolved /\
         length resolved = length (colors props) /\
         o.["colors"]
         = JArray (map (fun d => JString (Color_toHexString (Color d))) resolved)) /\
     (~ custom -> o.["colors"] = JUndefined) /\
     o.["theme"].["palette"] = of_optional_string (palette props)) /\
  (custom -> resolvable (colors props) = true ->
     exists o resolved,
       options props = Ok o /\
       map_result resolve_color (colors props) = Ok resolved /\
       length resolved = length (colors props) /\
       is_array o.["colors"] = true /\
       o.["colors"]
       = JArray (map (fun d => JString (Color_toHexString (Color d))) resolved) /\
       o.["theme"].["palette"] = JString "custom") /\
  (~ custom -> exists o, options props = Ok o /\ o.["colors"] = JUndefined).
Proof.
  intros custom.
  assert (Hguard := colors_guard props). fold custom in Hguard.
  split; [|split].
  - intros o Ho. unfold options, options_colors in Ho.
    destruct ((0 <? length (colors props))%nat && loose_eq (palette props) "custom").
    + assert (Hc : custom) by (now apply Hguard).
      destruct (map_result resolve_color (colors props)) as [resolved|e] eqn:E;
        simpl in Ho; [|discriminate].
      inversion Ho; subst; clear Ho. cbn.
      split; [split; auto|]. split; [|split; [contradiction | reflexivity]].
      intros _. exists resolved. split; [reflexivity|].
      split; [now apply map_result_length in E | reflexivity].
    + assert (Hc : ~ custom) by (intros Hc; apply Hguard in Hc; discriminate).
      simpl in Ho. inversion Ho; subst; clear Ho. cbn.
      split; [split; [discriminate | contradiction]|].
      split; [contradiction|]. split; reflexivity.
  - intros Hc Hres. pose proof Hc as [Hp _].
    apply Hguard in Hc.
    destruct (map_result_resolvable _ Hres) as [resolved E].
    unfold options, options_colors. rewrite Hc, E. simpl.
    eexists. exists resolved. split; [reflexivity|].
    split; [reflexivity|].
    split; [now apply map_result_length in E|].
    cbn. rewrite Hp. repeat split.
  - intros Hn. unfold options, options_colors.
    destruct ((0 <? length (colors props))%nat && loose_eq (palette props) "custom").
    + exfalso. apply Hn. now apply Hguard.
    + simpl. eexists. split; reflexivity.
Qed.

Lemma options_colors_gate_witness :
  (exists o,
     @options plain_colors defaultProps = Ok o /\ o.["colors"] = JUndefined) /\
  (exists o resolved,
     @options plain_colors
        (custom_props ["#ff0000"; "var(--token, rgb(0, 153, 255))"]) = Ok o /\
     map_result resolve_color ["#ff0000"; "var(--token, rgb(0, 153, 255))"]
     = Ok resolved /\
     length resolved = 2%nat /\
     is_array o.["colors"] = true /\
     o.["colors"]
     = JArray (map (fun d => JString (@Color_toHexString plain_colors
                                         (@Color plain_colors d))) resolved) /\
     o.["theme"].["palette"] = JString "custom").
Proof.
  split.
  - apply (proj2 (proj2 (@options_colors_gate plain_colors defaultProps))).
    intros [Hp _]. discriminate Hp.
  - apply (proj1 (proj2 (@options_colors_gate plain_colors
             (custom_props ["#ff0000"; "var(--token, rgb(0, 153, 255))"])))).
    + split; [reflexivity | discriminate].
    + reflexivity.
Defined.

(** Where every [var(] entry embeds an rgb or rgba expression, the
    projection returns. *)
Lemma options_returns_when_resolvable `{ColorLibrary} (props : Props) :
  resolvable (colors props) = true -> exists o, options props = Ok o.
Proof.
  intros Hres. unfold options, options_colors.
  destruct ((0 <? length (colors props))%nat && loose_eq (palette props) "custom").
  - destruct (map_result_resolvable _ Hres) as [resolved ->]. simpl. eauto.
  - simpl. eauto.
Qed.

(** The first callback throws on an entry exactly when the entry starts
    with "var(" and no part of it is matched by the pattern. *)
Lemma resolve_color_throws (item : string) :
  resolve_color item = Throw TypeError
  <-> startsWith_var item = true /\ ~ occurs_in item.
Proof.
  rewrite resolve_color_spec, <- regexp_exec_None.
  destruct (startsWith_var item); destruct (regexp_exec item);
    split; try discriminate; try tauto.
  - intros [_ H]; discriminate H.
  - intros [H _]; discriminate H.
  - intros [H _]; discriminate H.
Qed.

Lemma map_result_unresolvable (entries : list string) :
  resolvable entries = false ->
  map_result resolve_color entries = Throw TypeError.
Proof.
  induction entries as [|item rest IH]; simpl; intros H; [discriminate|].
  rewrite resolve_color_spec.
  destruct (startsWith_var item); simpl in *.
  - destruct (regexp_exec item) as [m|]; simpl in *; [|reflexivity].
    now rewrite (IH H).
  - now rewrite (IH H).
Qed.

(** The projection throws, and then a TypeError, exactly on the configs
    of the custom branch that hold an entry the first callback throws
    on. *)
Lemma options_throws_iff `{ColorLibrary} (props : Props) :
  (exists e, options props = Throw e)
  <-> palette props = Some "custom" /\ resolvable (colors props) = false.
Proof.
  unfold options, options_colors.
  destruct ((0 <? length (colors props))%nat && loose_eq (palette props) "custom")
    eqn:G.
  - apply colors_guard in G. destruct G as [Hp Hc].
    destruct (resolvable (colors props)) eqn:R.
    + destruct (map_result_resolvable _ R) as [resolved ->]. simpl.
      split; [intros [e He]; discriminate He | intros [_ Hf]; discriminate Hf].
    + rewrite (map_result_unresolvable _ R). simpl.
      split; [auto | intros _; now exists TypeError].
  - simpl. split; [intros [e He]; discriminate He|].
    intros [Hp R]. exfalso.
    assert (Hc : colors props <> []).
    { intros E. rewrite E in R. discriminate R. }
    pose proof (proj2 (colors_guard props) (conj Hp Hc)) as G'. congruence.
Qed.

(** The chart type as the options carry it. *)
Lemma options_chart_type `{ColorLibrary} (props : Props) (o : JsValue) :
  options props = Ok o ->
  o.["chart"].["type"] = JString (ChartTypes_value (chartType props)).
Proof.
  unfold options. destruct (options_colors props) as [c|e]; simpl; intros Ho.
  - inversion Ho; subst. reflexivity.
  - discriminate Ho.
Qed.

(** C5, at the failing input: an entry that starts with "var(" and
    embeds no rgb or rgba expression is not passed through; [.pop()] on
    the null match throws a TypeError, and with it the whole
    projection. *)
Theorem malformed_shared_color_throws :
  startsWith_var "var(--token-1)" = true /\
  regexp_exec "var(--token-1)" = None /\
  resolve_color "var(--token-1)" = Throw TypeError /\
  (forall L : ColorLibrary,
      @options L (custom_props ["#ff0000"; "var(--token-1)"]) = Throw TypeError).
Proof.
  repeat split; reflexivity.
Qed.

Lemma ChartTypes_value_inj (a b : ChartTypes) :
  ChartTypes_value a = ChartTypes_value b -> a = b.
Proof. destruct a, b; simpl; intros E; try reflexivity; discriminate E. Qed.

(** C6: in the options of every ChartConfig the fields are placed
    without transformation: chart.type is the configured variant,
    chart.stacked the stacking flag, the toolbar, legend, y-axis and
    x-axis label visibilities are the toggles, fill opacity and type and
    stroke show, curve and width are the corresponding fields, the
    x-axis type is "datetime", data labels are disabled, the no-data
    text is fixed and theme.palette is the palette identifier. *)
Theorem options_field_placement `{ColorLibrary} (props : Props) (o : JsValue) :
  options props = Ok o ->
  o.["chart"].["type"] = JString (ChartTypes_value (chartType props)) /\
  o.["chart"].["stacked"] = JBoolean (isStacked props) /\
  o.["chart"].["toolbar"].["show"] = JBoolean (showToolbar props) /\
  o.["legend"].["show"] = JBoolean (showLegend props) /\
  o.["yaxis"].["show"] = JBoolean (showYaxis props) /\
  o.["xaxis"].["labels"].["show"] = JBoolean (showXaxis props) /\
  o.["fill"].["opacity"] = JNumber (fillOpacity props) /\
  o.["fill"].["type"] = JString (FillType_value (fillType props)) /\
  o.["stroke"].["show"] = JBoolean (showStroke props) /\
  o.["stroke"].["curve"] = JString (StrokeCurve_value (strokeCurve props)) /\
  o.["stroke"].["width"] = JNumber (stroke props) /\
  o.["xaxis"].["type"] = JString "datetime" /\
  o.["dataLabels"].["enabled"] = JBoolean false /\
  o.["noData"].["text"] = JString "No Data" /\
  o.["theme"].["palette"] = of_optional_string (palette props) /\
  o.["plotOptions"].["bar"].["horizontal"] = JBoolean (isHorizontal props) /\
  o.["chart"].["id"] = JString "dogchart" /\
  o.["chart"].["events"].["dataPointSelection"]
    = of_optional_callback (onDataPointSelection props) /\
  o.["chart"].["events"].["dataPointMouseEnter"]
    = of_optional_callback (onDataPointMouseEnter props) /\
  o.["chart"].["events"].["dataPointMouseLeave"]
    = of_optional_callback (onDataPointMouseLeave props) /\
  o.["chart"].["events"].["mounted"] = JFunction SetMountedTrue.
Proof.
  unfold options. destruct (options_colors props) as [c|e]; simpl; intros Ho.
  - inversion Ho; subst; clear Ho. cbn. repeat split; reflexivity.
  - discriminate Ho.
Qed.

Lemma options_field_placement_witness :
  exists o,
    @options plain_colors defaultProps = Ok o /\
    o.["chart"].["type"] = JString "area" /\
    o.["chart"].["stacked"] = JBoolean false /\
    o.["legend"].["show"] = JBoolean true.
Proof.
  eexists. split; [reflexivity|].
  pose proof (@options_field_placement plain_colors defaultProps _ eq_refl) as H.
  destruct H as (Htype & Hstacked & _ & Hlegend & _).
  repeat split; assumption.
Defined.

(** * The component *)

(** The first step of a render: [makeSeries] returns for the counts at
    hand. *)
Ltac render_series :=
  unfold Charting, bind, lift; rewrite makeSeries_ok by (simpl; lia).

(** The options never read the clock or the random source: two renders
    of the same props hand the same options to the chart, whatever the
    worlds and the hooks are. *)
Lemma Charting_options_deterministic `{ColorLibrary}
    (props : Props) (h1 h2 : Hooks) (w1 w2 : World)
    (r1 r2 : Rendered * Hooks) (w1' w2' : World) :
  Charting props h1 w1 = Ok (r1, w1') ->
  Charting props h2 w2 = Ok (r2, w2') ->
  chart_options (chart (fst r1)) = chart_options (chart (fst r2)) /\
  options props = Ok (chart_options (chart (fst r1))).
Proof.
  unfold Charting, bind, lift, ret. intros H1 H2.
  destruct (makeSeries (seriesCount props) (points props) w1) as [[s1 v1]|e1];
    [|discriminate].
  destruct (makeSeries (seriesCount props) (points props) w2) as [[s2 v2]|e2];
    [|discriminate].
  destruct (options props) as [o|e]; [|discriminate].
  inversion H1; inversion H2; subst. simpl. auto.
Qed.

(** With counts the [Array] constructor accepts and colours that all
    resolve, a render returns. *)
Lemma Charting_returns `{ColorLibrary} (props : Props) (hooks : Hooks) (w : World) :
  0 <= seriesCount props < 2 ^ 32 ->
  0 <= points props < 2 ^ 32 ->
  resolvable (colors props) = true ->
  exists r w', Charting props hooks w = Ok (r, w').
Proof.
  intros Hs Hp Hres. unfold Charting, bind, lift, ret.
  rewrite makeSeries_ok by assumption.
  destruct (options_returns_when_resolvable props Hres) as [o ->].
  eauto.
Qed.

(** C7, at the failing input: the projection is not total.  For the
    custom palette with the single colour "var(--token-1)" the
    options, and the render as a whole, throw a TypeError in every
    world, so no RenderOptions are produced. *)
Theorem Charting_throws_on_malformed_shared_color :
  forall (L : ColorLibrary) (hooks : Hooks) (w : World),
    @options L (custom_props ["var(--token-1)"]) = Throw TypeError /\
    @Charting L (custom_props ["var(--token-1)"]) hooks w = Throw TypeError.
Proof.
  intros L hooks w. split; [reflexivity|].
  render_series. reflexivity.
Qed.

(** * Property controls *)

(** C8: the orientation control is hidden whenever the chart type is
    not "bar", the fill-opacity control whenever the fill type is not
    "solid", the stroke-width control whenever the stroke is switched
    off, and the colour list control whenever the palette is not
    "custom". *)
Theorem controls_hidden (props : Props) :
  (chartType props <> Bar -> hidden "isHorizontal" props = true) /\
  (fillType props <> Solid -> hidden "fillOpacity" props = true) /\
  (showStroke props = false -> hidden "stroke" props = true) /\
  (palette props <> Some "custom" -> hidden "colors" props = true).
Proof.
  unfold hidden; cbn [find_control propertyControls String.eqb Ascii.eqb Bool.eqb].
  repeat split.
  - intros Hne. destruct (chartType props); try reflexivity. contradiction.
  - intros Hne. destruct (fillType props); try reflexivity. contradiction.
  - intros ->. reflexivity.
  - intros Hne. apply negb_true_iff.
    destruct (loose_eq (palette props) "custom") eqn:E; [|reflexivity].
    apply loose_eq_true in E. contradiction.
Qed.

Lemma controls_hidden_witness :
  hidden "isHorizontal" plain_line_props = true /\
  hidden "fillOpacity" plain_line_props = true /\
  hidden "stroke" plain_line_props = true /\
  hidden "colors" plain_line_props = true.
Proof.
  destruct (controls_hidden plain_line_props) as (Hh & Hf & Hs & Hc).
  split; [apply Hh; discriminate|].
  split; [apply Hf; discriminate|].
  split; [apply Hs; reflexivity|].
  apply Hc; discriminate.
Defined.

(** The four predicates hide their controls in no other case. *)
Lemma controls_shown (props : Props) :
  (chartType props = Bar -> hidden "isHorizontal" props = false) /\
  (fillType props = Solid -> hidden "fillOpacity" props = false) /\
  (showStroke props = true -> hidden "stroke" props = false) /\
  (palette props = Some "custom" -> hidden "colors" props = false).
Proof.
  unfold hidden; cbn [find_control propertyControls String.eqb Ascii.eqb Bool.eqb].
  repeat split; intros ->; reflexivity.
Qed.

(** * The two copies of the component *)

Lemma Basic_makeSeries_eq (seriesCount points : Z) (w : World) :
  Basic.makeSeries seriesCount points w = makeSeries seriesCount points w.
Proof. reflexivity. Qed.

(** C9, as amended: the reduced copy leaves out the options as a whole,
    not their colour part alone.  Whenever the full component renders,
    the reduced one renders in the same world with the same series
    data, chart type and dimensions and with the same hooks afterwards,
    but hands the chart the empty options object and shows no
    placeholder frame, while the full options hold the configured
    chart type. *)
Theorem variants_share_series `{ColorLibrary}
    (props : Props) (hooks hooks' : Hooks) (w w' : World) (r : Rendered) :
  Charting props hooks w = Ok ((r, hooks'), w') ->
  Basic.Charting props hooks w
  = Ok (({| placeholder_visible := None;
            chart := {| chart_options := JObject [];
                        chart_series := chart_series (chart r);
                        chart_type := chart_type (chart r);
                        chart_width := chart_width (chart r);
                        chart_height := chart_height (chart r) |} |},
         hooks'), w') /\
  (forall key, (JObject []).[key] = JUndefined) /\
  (chart_options (chart r)).["chart"].["type"]
    = JString (ChartTypes_value (chartType props)) /\
  placeholder_visible r = Some (negb (mounted_state hooks)).
Proof.
  unfold Charting, Basic.Charting, bind, lift, ret.
  change (Basic.makeSeries (seriesCount props) (points props) w)
    with (makeSeries (seriesCount props) (points props) w).
  destruct (makeSeries (seriesCount props) (points props) w) as [[init w1]|e];
    [|discriminate].
  destruct (options props) as [o|e] eqn:Eo; [|discriminate].
  intros Hr. inversion Hr; subst; clear Hr. cbn.
  repeat split.
  exact (options_chart_type props o Eo).
Qed.

Lemma variants_share_series_witness :
  exists r hooks' w',
    @Charting plain_colors defaultProps fresh_hooks still_world
      = Ok ((r, hooks'), w') /\
    Basic.Charting defaultProps fresh_hooks still_world
      = Ok (({| placeholder_visible := None;
                chart := {| chart_options := JObject [];
                            chart_series := chart_series (chart r);
                            chart_type := chart_type (chart r);
                            chart_width := chart_width (chart r);
                            chart_height := chart_height (chart r) |} |},
             hooks'), w').
Proof.
  eexists. eexists. eexists.
  assert (Hrun :
    @Charting plain_colors defaultProps fresh_hooks still_world
    = Ok (({| placeholder_visible := Some true;
              chart := {| chart_options :=
                            match @options plain_colors defaultProps with
                            | Ok o => o
                            | Throw _ => JUndefined
                            end;
                          chart_series := [series_at still_world 5];
                          chart_type := Area;
                          chart_width := width defaultProps;
                          chart_height := height defaultProps |} |},
           {| series_state := Some [series_at still_world 5];
              mounted_state := false |}),
          advance still_world 5)).
  { render_series. reflexivity. }
  split; [exact Hrun|].
  exact (proj1 (@variants_share_series plain_colors defaultProps fresh_hooks _
                  still_world _ _ Hrun)).
Defined.

(** C9 fails as stated: with the colors property set aside, the options
    of the two copies still differ for the default props; the reduced
    copy has no chart.type, the full one has "area". *)
Lemma variants_differ_beyond_colors :
  exists o,
    @options plain_colors defaultProps = Ok o /\
    Basic.options defaultProps = JObject [] /\
    without "colors" o <> without "colors" (Basic.options defaultProps) /\
    o.["chart"].["type"] = JString "area" /\
    (Basic.options defaultProps).["chart"].["type"] = JUndefined.
Proof.
  eexists. split; [reflexivity|].
  split; [reflexivity|].
  split; [|split; reflexivity].
  cbn. intros Heq. discriminate Heq.
Qed.

(** With the clock at 1700000000000, the point at index 2400472223
    of a series, an index an array can have, is the first whose date
    is invalid. *)
Example date_beyond_range_is_invalid :
  Date_new (1700000000000 - 2400472222 * hour_ms) = ValidDate (-8639999999200000) /\
  Date_new (1700000000000 - 2400472223 * hour_ms) = InvalidDate /\
  2400472223 < 2 ^ 32.
Proof. repeat split. Qed.

(** * Sample runs *)

Example shared_color_resolves :
  resolve_color "var(--token-0f1f2a, rgb(0, 153, 255))" = Ok "rgb(0, 153, 255)".
Proof. reflexivity. Qed.

Example pattern_star_is_greedy :
  regexp_exec "var(--a, rgba(1, 2, 3, 0.5)) rgb(4)" = Some "rgba(1, 2, 3, 0.5)) rgb(4)".
Proof. reflexivity. Qed.

Example pattern_stays_on_one_line :
  regexp_exec (String "r" (String "g" (String "b" (String "("
                (String "1" (String ")" (String "010" "2)")))))))
  = Some "rgb(1)".
Proof. reflexivity. Qed.

Example direct_color_passes :
  resolve_color "#ff0000" = Ok "#ff0000".
Proof. reflexivity. Qed.

Example custom_colors_resolved :
  exists o,
    @options plain_colors
      (custom_props ["#ff0000"; "var(--token-1, rgba(0,128,255,1))"]) = Ok o /\
    o.["colors"] = JArray [JString "#ff0000"; JString "rgba(0,128,255,1)"].
Proof. eexists. split; reflexivity. Qed.

Example values_of_sample_draws :
  map (fun k => genValue (draw (sample_draw k))) [0; 1; 2]%nat = [1500; 2999; 250]%Z.
Proof. reflexivity. Qed.

Example default_render :
  exists r hooks' w',
    @Charting plain_colors defaultProps fresh_hooks still_world
      = Ok ((r, hooks'), w') /\
    length (chart_series (chart r)) = 1%nat /\
    map (fun s => length (data s)) (chart_series (chart r)) = [5%nat] /\
    (chart_options (chart r)).["chart"].["type"] = JString "area" /\
    (chart_options (chart r)).["chart"].["stacked"] = JBoolean false /\
    (chart_options (chart r)).["legend"].["show"] = JBoolean true /\
    (chart_options (chart r)).["colors"] = JUndefined.
Proof.
  eexists. eexists. eexists. split.
  - render_series. reflexivity.
  - repeat split; reflexivity.
Qed.

(** * More on the generated series *)

(** The world a returning run of [makeSeries] leaves behind. *)
Lemma makeSeries_world (seriesCount points : Z) (w w' : World) (l : list Series) :
  makeSeries seriesCount points w = Ok (l, w') ->
  w' = advance w (Z.to_nat (seriesCount * points)).
Proof.
  intros H. pose proof (makeSeries_inv _ _ _ _ _ H) as (Hs & Hp & _).
  destruct Hp as [->|Hp].
  - rewrite makeSeries_zero in H. inversion H; subst.
    now rewrite Z.mul_0_l, advance_0.
  - rewrite makeSeries_ok in H by assumption. inversion H; subst.
    f_equal. rewrite Z2Nat.inj_mul by lia. reflexivity.
Qed.

(** X1: a run of makeSeries that returns has read the clock and the
    random source exactly seriesCount times pointCount times each, and
    has done nothing else to them. *)
Theorem makeSeries_reads
    (seriesCount pointCount : Z) (w w' : World) (l : list Series) :
  makeSeries seriesCount pointCount w = Ok (l, w') ->
  dateNow w' = dateNow w /\
  mathRandom w' = mathRandom w /\
  clockReads w' = (clockReads w + Z.to_nat (seriesCount * pointCount))%nat /\
  randomDraws w' = (randomDraws w + Z.to_nat (seriesCount * pointCount))%nat.
Proof.
  intros H. apply makeSeries_world in H. subst w'. repeat split.
Qed.

Lemma makeSeries_reads_witness :
  makeSeries 2 3 still_world
  = Ok ([series_at still_world 3; series_at (advance still_world 3) 3],
        advance still_world 6) /\
  clockReads (advance still_world 6) = 6%nat /\
  randomDraws (advance still_world 6) = 6%nat.
Proof.
  assert (Hrun : makeSeries 2 3 still_world
                 = Ok ([series_at still_world 3; series_at (advance still_world 3) 3],
                       advance still_world 6))
    by (rewrite makeSeries_ok by lia; reflexivity).
  split; [exact Hrun|].
  destruct (makeSeries_reads 2 3 still_world _ _ Hrun) as (_ & _ & Hc & Hr).
  split; [exact Hc | exact Hr].
Defined.

Lemma seq_add_map (a n : nat) :
  forall s, seq (a + s) n = map (fun k => (a + k)%nat) (seq s n).
Proof.
  induction n as [|n IH]; intros s; [reflexivity|].
  cbn [seq map]. f_equal. rewrite <- Nat.add_succ_r. apply IH.
Qed.

(** X2: generating a + b series is generating a series and then b
    series in the world left behind, one set after the other. *)
Theorem makeSeries_add (a b pointCount : Z) (w : World) :
  0 <= a -> 0 <= b -> a + b < 2 ^ 32 -> 0 <= pointCount < 2 ^ 32 ->
  makeSeries (a + b) pointCount w
  = (first <- makeSeries a pointCount ;;
     second <- makeSeries b pointCount ;;
     ret (first ++ second)%list) w.
Proof.
  intros Ha Hb Hab Hp. unfold bind at 1.
  rewrite (makeSeries_ok a pointCount w) by lia. unfold bind at 1.
  rewrite (makeSeries_ok b pointCount) by lia. unfold ret.
  rewrite (makeSeries_ok (a + b) pointCount w) by lia.
  rewrite Z2Nat.inj_add by lia. rewrite seq_app, map_app.
  rewrite advance_advance, Nat.mul_add_distr_r. f_equal. f_equal. f_equal.
  rewrite <- (Nat.add_0_r (0 + Z.to_nat a)), Nat.add_0_l, seq_add_map, map_map.
  apply map_ext. intros k. rewrite advance_advance. f_equal. f_equal. lia.
Qed.

Lemma makeSeries_add_witness :
  makeSeries (1 + 2) 3 still_world
  = (first <- makeSeries 1 3 ;;
     second <- makeSeries 2 3 ;;
     ret (first ++ second)%list) still_world.
Proof.
  apply (makeSeries_add 1 2 3 still_world); lia.
Defined.

(** X3: the value of point i of the series at position k is made from
    draw number k times pointCount plus i of the run, and from no
    other. *)
Theorem makeSeries_values
    (seriesCount pointCount : Z) (w w' : World) (l : list Series)
    (k i : nat) (s : Series) (p : Date * Z) :
  makeSeries seriesCount pointCount w = Ok (l, w') ->
  nth_error l k = Some s ->
  nth_error (data s) i = Some p ->
  snd p = genValue (draw (mathRandom w
                            (randomDraws w + k * Z.to_nat pointCount + i)%nat)).
Proof.
  intros Hrun Hk Hi.
  apply makeSeries_inv in Hrun. destruct Hrun as (_ & _ & ->).
  apply nth_error_map_seq in Hk. destruct Hk as [_ ->].
  apply series_at_nth in Hi. destruct Hi as (_ & _ & Hv). exact Hv.
Qed.

Lemma makeSeries_values_witness :
  snd (ValidDate 1699996400000, 2999)
  = genValue (draw (mathRandom still_world
                      (randomDraws still_world + 0 * Z.to_nat 3 + 1)%nat)).
Proof.
  apply (makeSeries_values 2 3 still_world (advance still_world 6)
           [series_at still_world 3; series_at (advance still_world 3) 3]
           0 1 (series_at still_world 3) (ValidDate 1699996400000, 2999)).
  - rewrite makeSeries_ok by lia. reflexivity.
  - reflexivity.
  - reflexivity.
Defined.

(** X4: the values of a run depend on the random source alone and the
    timestamps on the clock alone: two runs with the same counts whose
    worlds agree on the draws to come return the same values, and two
    whose worlds agree on the clock reads to come return the same
    timestamps. *)
Theorem makeSeries_sources_apart
    (seriesCount pointCount : Z) (w1 w2 w1' w2' : World) (l1 l2 : list Series) :
  makeSeries seriesCount pointCount w1 = Ok (l1, w1') ->
  makeSeries seriesCount pointCount w2 = Ok (l2, w2') ->
  ((forall j, draw (mathRandom w1 (randomDraws w1 + j)%nat)
              = draw (mathRandom w2 (randomDraws w2 + j)%nat)) ->
   map (fun s => map snd (data s)) l1 = map (fun s => map snd (data s)) l2) /\
  ((forall j, dateNow w1 (clockReads w1 + j)%nat
              = dateNow w2 (clockReads w2 + j)%nat) ->
   map (fun s => map fst (data s)) l1 = map (fun s => map fst (data s)) l2).
Proof.
  intros H1 H2.
  apply makeSeries_inv in H1. destruct H1 as (_ & _ & ->).
  apply makeSeries_inv in H2. destruct H2 as (_ & _ & ->).
  split; intros Hsame; rewrite !map_map; apply map_ext; intros k;
    unfold series_at; cbn [data]; rewrite !map_map; apply map_ext; intros i;
    cbn [fst snd point_at date value advance clockReads randomDraws
         dateNow mathRandom];
    rewrite <- !Nat.add_assoc.
  - now rewrite Hsame.
  - now rewrite Hsame.
Qed.

Lemma makeSeries_sources_apart_witness :
  map (fun s => map snd (data s)) [series_at still_world 2]
  = map (fun s => map snd (data s)) [series_at ticking_world 2].
Proof.
  refine (proj1 (makeSeries_sources_apart 1 2 still_world ticking_world
                   (advance still_world 2) (advance ticking_world 2)
                   [series_at still_world 2] [series_at ticking_world 2] _ _) _).
  - rewrite makeSeries_ok by lia. reflexivity.
  - rewrite makeSeries_ok by lia. reflexivity.
  - intros j. reflexivity.
Defined.

(** X5: when the clock shows one time T at every read of a run, all
    series of the returned set carry the same timestamps: new Date(T
    minus i hours) at index i, which is the date T minus i hours while
    that lies within 8.64e15 ms of the epoch and the invalid date
    beyond. *)
Theorem makeSeries_aligned
    (seriesCount pointCount : Z) (w w' : World) (l : list Series) (T : Z) :
  makeSeries seriesCount pointCount w = Ok (l, w') ->
  (forall j, (j < Z.to_nat (seriesCount * pointCount))%nat ->
             dateNow w (clockReads w + j)%nat = T) ->
  forall s, In s l ->
    map fst (data s)
    = map (fun i => Date_new (T - Z.of_nat i * hour_ms))
          (seq 0 (Z.to_nat pointCount)) /\
    forall i p, nth_error (data s) i = Some p ->
      (Z.abs (T - Z.of_nat i * hour_ms) <= max_time ->
       fst p = ValidDate (T - Z.of_nat i * hour_ms)) /\
      (max_time < Z.abs (T - Z.of_nat i * hour_ms) -> fst p = InvalidDate).
Proof.
  intros Hrun HT s Hs.
  pose proof (makeSeries_inv _ _ _ _ _ Hrun) as (Hsc & Hpc & ->).
  apply in_map_iff in Hs. destruct Hs as (k & <- & Hk).
  apply in_seq in Hk.
  assert (Hread : forall i, (i < Z.to_nat pointCount)%nat ->
            dateNow w (clockReads w + k * Z.to_nat pointCount + i)%nat = T).
  { intros i Hi. rewrite <- Nat.add_assoc. apply HT.
    destruct Hpc as [->|Hpc]; [simpl in Hk; lia|].
    rewrite Z2Nat.inj_mul by lia. nia. }
  split.
  - unfold series_at; cbn [data]. rewrite !map_map. apply map_ext_in.
    intros i Hi. apply in_seq in Hi.
    cbn [fst point_at date advance clockReads dateNow].
    rewrite Hread by lia. reflexivity.
  - intros i p Hp. apply series_at_nth in Hp. destruct Hp as (Hi & Hd & _).
    cbn [advance clockReads dateNow] in Hd. rewrite Hread in Hd by exact Hi.
    rewrite Hd. split; [apply Date_new_valid | apply Date_new_invalid].
Qed.

Lemma makeSeries_aligned_witness :
  map fst (data (series_at (advance still_world 3) 3))
  = map (fun i => Date_new (1700000000000 - Z.of_nat i * hour_ms))
        (seq 0 (Z.to_nat 3)) /\
  forall i p, nth_error (data (series_at (advance still_world 3) 3)) i = Some p ->
    (Z.abs (1700000000000 - Z.of_nat i * hour_ms) <= max_time ->
     fst p = ValidDate (1700000000000 - Z.of_nat i * hour_ms)) /\
    (max_time < Z.abs (1700000000000 - Z.of_nat i * hour_ms) ->
     fst p = InvalidDate).
Proof.
  apply (makeSeries_aligned 2 3 still_world (advance still_world 6)
           [series_at still_world 3; series_at (advance still_world 3) 3]
           1700000000000).
  - rewrite makeSeries_ok by lia. reflexivity.
  - intros j _. reflexivity.
  - right. left. reflexivity.
Defined.

(** X6: two neighbouring points of a series whose values, the clock
    reading minus i hours, both lie within 8.64e15 ms of the epoch
    carry valid dates whose time values differ by what the clock
    advanced between their two reads, minus one hour; so the later
    point is older than the earlier one exactly when the clock advanced
    by less than an hour between the two reads. *)
Theorem makeSeries_timestamp_gap
    (seriesCount pointCount : Z) (w w' : World) (l : list Series)
    (k i : nat) (s : Series) (p q : Date * Z) :
  makeSeries seriesCount pointCount w = Ok (l, w') ->
  nth_error l k = Some s ->
  nth_error (data s) i = Some p ->
  nth_error (data s) (S i) = Some q ->
  Z.abs (dateNow w (clockReads w + k * Z.to_nat pointCount + i)%nat
         - Z.of_nat i * hour_ms) <= max_time ->
  Z.abs (dateNow w (clockReads w + k * Z.to_nat pointCount + S i)%nat
         - Z.of_nat (S i) * hour_ms) <= max_time ->
  let reading j := dateNow w (clockReads w + k * Z.to_nat pointCount + j)%nat in
  exists tp tq,
    fst p = ValidDate tp /\
    fst q = ValidDate tq /\
    tq - tp = (reading (S i) - reading i) - hour_ms /\
    (tq < tp <-> reading (S i) - reading i < hour_ms).
Proof.
  intros Hrun Hk Hp Hq Hin HSin reading.
  apply makeSeries_inv in Hrun. destruct Hrun as (_ & _ & ->).
  apply nth_error_map_seq in Hk. destruct Hk as [_ ->].
  apply series_at_nth in Hp. destruct Hp as (_ & Hp & _).
  apply series_at_nth in Hq. destruct Hq as (_ & Hq & _).
  cbn [advance clockReads dateNow] in Hp, Hq.
  rewrite (Date_new_valid _ Hin) in Hp. rewrite (Date_new_valid _ HSin) in Hq.
  fold (reading i) in Hp. fold (reading (S i)) in Hq.
  exists (reading i - Z.of_nat i * hour_ms),
         (reading (S i) - Z.of_nat (S i) * hour_ms).
  split; [exact Hp|]. split; [exact Hq|]. unfold hour_ms. lia.
Qed.

Lemma makeSeries_timestamp_gap_witness :
  let reading j :=
    dateNow ticking_world (clockReads ticking_world + 0 * Z.to_nat 2 + j)%nat in
  exists tp tq,
    fst (ValidDate 1700000000000, 1500) = ValidDate tp /\
    fst (ValidDate 1699996400001, 2999) = ValidDate tq /\
    tq - tp = (reading 1%nat - reading 0%nat) - hour_ms /\
    (tq < tp <-> reading 1%nat - reading 0%nat < hour_ms).
Proof.
  apply (makeSeries_timestamp_gap 1 2 ticking_world (advance ticking_world 2)
           [series_at ticking_world 2] 0 0 (series_at ticking_world 2)).
  - rewrite makeSeries_ok by lia. reflexivity.
  - reflexivity.
  - reflexivity.
  - reflexivity.
  - unfold max_time, hour_ms. simpl. lia.
  - unfold max_time, hour_ms. simpl. lia.
Defined.

(** * More on the generated values *)

Lemma shr_1_shifted_exactly M k mrs :
  0 <= k -> shifted_exactly M k mrs -> shifted_exactly M (k + 1) (shr_1 mrs).
Proof.
  intros Hk (H0 & Hle & Hlt). unfold shifted_exactly.
  rewrite Z.pow_add_r, Z.pow_1_r by lia.
  assert (Hp : 0 < 2 ^ k) by (apply Z.pow_pos_nonneg; lia).
  destruct mrs as [m r s]. cbn [shr_m] in H0, Hle, Hlt.
  destruct m as [|[p|p|]|p]; cbn [shr_1 shr_m]; lia.
Qed.

Lemma shr_shifted_exactly (M e n : Z) :
  0 <= M ->
  shifted_exactly M (Z.max 0 n) (fst (shr (Build_shr_record M false false) e n)).
Proof.
  intros HM.
  assert (Hstart : shifted_exactly M 0 (Build_shr_record M false false)).
  { unfold shifted_exactly; cbn [shr_m]. rewrite Z.pow_0_r. lia. }
  destruct n as [|p|p]; cbn [shr fst]; try exact Hstart.
  change (Z.max 0 (Zpos p)) with (0 + Zpos p).
  apply (iter_pos_invariant shr_1 (shifted_exactly M)).
  - intros k x Hk. now apply shr_1_shifted_exactly.
  - lia.
  - exact Hstart.
Qed.

(** Rounding a positive value that is at least the integer [N], and
    below [2 ^ 12] with half a unit of room, gives a number whose
    integer part is at least [N]. *)
Lemma binary_round_aux_at_least (M : positive) (E N : Z) :
  E <= -41 -> 0 <= N ->
  (forall k, 0 <= k <= -41 - E -> 2 * Zpos M + 2 ^ k < 2 * 2 ^ 12 * 2 ^ (- E)) ->
  N * 2 ^ (- E) <= Zpos M ->
  N <= truncate (binary_round_aux prec emax false (Zpos M) E loc_Exact).
Proof.
  intros HE HN Hroom Hlow. unfold binary_round_aux.
  pose proof (shr_fexp_round_below (Zpos M) E (2 ^ 12) ltac:(lia) HE
                ltac:(split; [reflexivity | lia]) Hroom) as H1.
  unfold shr_fexp in H1 |- *. cbn [shr_record_of_loc] in H1 |- *.
  set (n1 := fexp prec emax (Zdigits2 (Zpos M) + E) - E) in *.
  pose proof (shr_shifted (Zpos M) E n1 ltac:(lia)) as Hs1.
  pose proof (shr_shifted_exactly (Zpos M) E n1 ltac:(lia)) as Hx1.
  destruct (shr (Build_shr_record (Zpos M) false false) E n1) as [mrs1 e1].
  cbn [fst] in Hx1. destruct Hs1 as [He1 _]. destruct H1 as [Hr1 Hm2].
  destruct Hx1 as (Hm1 & _ & Hlt1).
  pose proof (round_nearest_even_bounds mrs1) as Hrne.
  set (m2 := round_nearest_even (shr_m mrs1) (loc_of_shr_record mrs1)) in *.
  set (k1 := Z.max 0 n1) in *.
  assert (Hk1 : 0 < 2 ^ k1) by (apply Z.pow_pos_nonneg; unfold k1; lia).
  assert (Hp1 : 0 < 2 ^ (- e1)) by (apply Z.pow_pos_nonneg; lia).
  assert (Hsplit1 : 2 ^ (- E) = 2 ^ (- e1) * 2 ^ k1).
  { rewrite <- Z.pow_add_r by (unfold k1; lia). f_equal. lia. }
  assert (Hm2low : N * 2 ^ (- e1) <= m2).
  { assert (N * 2 ^ (- e1) < shr_m mrs1 + 1); [|lia].
    apply Z.mul_lt_mono_pos_r with (p := 2 ^ k1); [lia|].
    rewrite <- Z.mul_assoc, <- Hsplit1. lia. }
  set (n2 := fexp prec emax (Zdigits2 m2 + e1) - e1).
  pose proof (shr_shifted m2 e1 n2 ltac:(lia)) as Hs2.
  pose proof (shr_shifted_exactly m2 e1 n2 ltac:(lia)) as Hx2.
  destruct (shr (Build_shr_record m2 false false) e1 n2) as [mrs3 e3].
  cbn [fst] in Hx2. destruct Hs2 as [He3 _].
  destruct Hx2 as (Hm3 & _ & Hlt3).
  assert (Hn2 : n2 <= -41 - e1).
  { unfold n2. apply Z.le_sub_le_add_r. replace (-41 - e1 + e1) with (-41) by lia.
    apply fexp_le; [|lia].
    assert (m2 < 2 ^ (12 - e1)).
    { replace (12 - e1) with (12 + - e1) by lia. now rewrite Z.pow_add_r by lia. }
    pose proof (Zdigits2_nonneg_le m2 (12 - e1) ltac:(lia) ltac:(lia) H).
    unfold prec. lia. }
  set (k2 := Z.max 0 n2) in *.
  assert (Hk2 : 0 < 2 ^ k2) by (apply Z.pow_pos_nonneg; unfold k2; lia).
  assert (Hp3 : 0 < 2 ^ (- e3)) by (apply Z.pow_pos_nonneg; unfold k2 in *; lia).
  assert (Hsplit2 : 2 ^ (- e1) = 2 ^ (- e3) * 2 ^ k2).
  { rewrite <- Z.pow_add_r by (unfold k2 in *; lia). f_equal. lia. }
  assert (Hm3low : N * 2 ^ (- e3) <= shr_m mrs3).
  { assert (N * 2 ^ (- e3) < shr_m mrs3 + 1); [|lia].
    apply Z.mul_lt_mono_pos_r with (p := 2 ^ k2); [lia|].
    rewrite <- Z.mul_assoc, <- Hsplit2. lia. }
  destruct (shr_m mrs3) as [|m3|m3] eqn:Em3; cbn [truncate]; try nia.
  replace (e3 <=? emax - prec) with true
    by (symmetry; apply Z.leb_le; unfold emax, prec, k2 in *; lia).
  cbn [truncate]. rewrite Z.shiftl_div_pow2 by (unfold k2 in *; lia).
  apply Z.div_le_lower_bound; lia.
Qed.

Lemma bitor_zero_small (x : number) :
  0 <= truncate x < 2 ^ 31 -> bitor_zero x = truncate x.
Proof.
  intros H. unfold bitor_zero, ToInt32. rewrite Z.lor_0_r.
  rewrite Z.mod_small by (change (2 ^ 32) with 4294967296;
                          change (2 ^ 31) with 2147483648 in H; lia).
  destruct (Z.ltb_spec (truncate x) (2 ^ 31)); [reflexivity | lia].
Qed.

(** [(Math.random() * 3000) | 0] against the exact product: the
    rounding of the product can lift the integer part by one, and does
    nothing else to it. *)
Lemma random_int_bounds (r : UnitDouble) :
  0 <= floor_times_3000 (draw r) < 3000 /\
  floor_times_3000 (draw r)
  <= bitor_zero (number_mul (draw r) n3000)
  <= floor_times_3000 (draw r) + 1.
Proof.
  destruct r as [x Hx]. cbn [draw].
  destruct x as [[|]|s|  |[|] m e]; try discriminate Hx.
  { cbn. lia. }
  cbn [in_unit_interval] in Hx.
  apply andb_prop in Hx. destruct Hx as [Hx Hlt].
  apply andb_prop in Hx. destruct Hx as [Hb He].
  apply Z.ltb_lt in Hlt, He.
  cbn [floor_times_3000]. rewrite Z.shiftl_div_pow2 by lia.
  set (q := 3000 * Zpos m / 2 ^ (- e)).
  assert (Hp : 0 < 2 ^ (- e)) by (apply Z.pow_pos_nonneg; lia).
  assert (Hq0 : 0 <= q) by (apply Z.div_pos; lia).
  assert (Hqlo : q * 2 ^ (- e) <= 3000 * Zpos m).
  { unfold q. rewrite Z.mul_comm. apply Z.mul_div_le. lia. }
  assert (Hqhi : 3000 * Zpos m < (q + 1) * 2 ^ (- e)).
  { pose proof (Z.mul_succ_div_gt (3000 * Zpos m) (2 ^ (- e)) Hp) as Hgt.
    fold q in Hgt. lia. }
  assert (Hq3 : q < 3000).
  { unfold q. apply Z.div_lt_upper_bound; lia. }
  split; [lia|].
  change (number_mul (S754_finite false m e) n3000)
    with (binary_round_aux prec emax false
            (Zpos (m * 6597069766656000)) (e + -41) loc_Exact).
  assert (Hpow : 2 ^ (- (e + -41)) = 2 ^ (- e) * 2199023255552).
  { replace (- (e + -41)) with (- e + 41) by lia.
    now rewrite Z.pow_add_r by lia. }
  assert (Hroom : forall b, q + 2 <= b ->
            forall k, 0 <= k <= -41 - (e + -41) ->
            2 * Zpos (m * 6597069766656000) + 2 ^ k < 2 * b * 2 ^ (- (e + -41))).
  { intros b Hbq k Hk. rewrite Pos2Z.inj_mul, Hpow.
    assert (2 ^ k <= 2 ^ (- e)) by (apply Z.pow_le_mono_r; lia).
    nia. }
  assert (Hup : 0 <= truncate (binary_round_aux prec emax false
                                 (Zpos (m * 6597069766656000)) (e + -41) loc_Exact)
                < q + 2).
  { apply binary_round_aux_below; [lia | change (2 ^ 12) with 4096; lia |].
    apply Hroom. lia. }
  assert (Hlow : q <= truncate (binary_round_aux prec emax false
                                 (Zpos (m * 6597069766656000)) (e + -41) loc_Exact)).
  { apply binary_round_aux_at_least; [lia | lia | |].
    - change (2 * 2 ^ 12) with (2 * 4096). apply Hroom.
      change (2 ^ 12) with 4096. lia.
    - rewrite Pos2Z.inj_mul, Hpow. nia. }
  rewrite bitor_zero_small by (change (2 ^ 31) with 2147483648; lia).
  lia.
Qed.

(** X7: the value of a point is the integer part of the exact product
    of its draw and 3000, or that plus one where the product rounds up
    to the next integer, and 250 where this is less. *)
Theorem genValue_near_exact (r : UnitDouble) :
  Z.max 250 (floor_times_3000 (draw r))
  <= genValue (draw r)
  <= Z.max 250 (floor_times_3000 (draw r) + 1).
Proof.
  unfold genValue. pose proof (random_int_bounds r). lia.
Qed.

Lemma lower_twelfth_floor (r : UnitDouble) :
  in_lower_twelfth (draw r) = true <-> floor_times_3000 (draw r) < 250.
Proof.
  destruct r as [x Hx]. cbn [draw].
  destruct x as [[|]|s|  |[|] m e]; try discriminate Hx.
  { cbn. split; [lia | reflexivity]. }
  cbn [in_unit_interval] in Hx.
  apply andb_prop in Hx. destruct Hx as [Hx _].
  apply andb_prop in Hx. destruct Hx as [_ He]. apply Z.ltb_lt in He.
  cbn [in_lower_twelfth floor_times_3000].
  rewrite Z.shiftl_div_pow2 by lia. rewrite Z.ltb_lt.
  assert (Hp : 0 < 2 ^ (- e)) by (apply Z.pow_pos_nonneg; lia).
  split; intros H.
  - apply Z.div_lt_upper_bound; lia.
  - destruct (Z.lt_ge_cases (12 * Zpos m) (2 ^ (- e))) as [|Hge]; [assumption|].
    exfalso. assert (250 <= 3000 * Zpos m / 2 ^ (- e)); [|lia].
    apply Z.div_le_lower_bound; lia.
Qed.

(** X8: every draw below one twelfth gives the value 250, and for every
    other draw Math.max leaves the drawn integer as it is; so 250 is
    the value of the whole lowest twelfth of the draws. *)
Theorem genValue_clamp (r : UnitDouble) :
  genValue (draw r)
  = if in_lower_twelfth (draw r)
    then 250
    else bitor_zero (number_mul (draw r) n3000).
Proof.
  unfold genValue. pose proof (random_int_bounds r) as (_ & Hlo & Hhi).
  pose proof (lower_twelfth_floor r) as Hiff.
  destruct (in_lower_twelfth (draw r)).
  - assert (floor_times_3000 (draw r) < 250) by (now apply Hiff). lia.
  - assert (~ floor_times_3000 (draw r) < 250).
    { intros H. apply Hiff in H. discriminate H. }
    lia.
Qed.

(** The product does round up: for the largest double below one third
    the exact product is below 1000 and the drawn integer is 1000. *)
Example product_rounds_up :
  floor_times_3000 (S754_finite false 6004799503160661 (-54)) = 999 /\
  in_unit_interval (S754_finite false 6004799503160661 (-54)) = true /\
  genValue (S754_finite false 6004799503160661 (-54)) = 1000.
Proof. repeat split; reflexivity. Qed.

(** * More on the colour pattern *)

Lemma length_append (a b : string) :
  String.length (a ++ b) = (String.length a + String.length b)%nat.
Proof. induction a as [|c a IH]; simpl; [reflexivity | now rewrite IH]. Qed.

Lemma pattern_text_not_var (m : string) :
  pattern_text m -> startsWith_var m = false.
Proof. intros [body d _ _|body d _ _]; reflexivity. Qed.

(** Of all texts [.*\d\)] can match at the head of [s], [match_tail]
    gives the longest. *)
Lemma match_tail_longest (s : string) :
  forall t, match_tail s = Some t ->
  forall body d rest,
    s = body ++ String d (String ")" rest) ->
    no_line_terminator body = true -> is_digit d = true ->
    (String.length body + 2 <= String.length t)%nat.
Proof.
  induction s as [|c s IH]; intros t Ht body d rest Hs Hb Hd.
  - destruct body; discriminate Hs.
  - cbn [match_tail] in Ht.
    destruct (if is_line_terminator c then None else match_tail s) as [t'|] eqn:Ein.
    + inversion Ht; subst t; clear Ht.
      destruct (is_line_terminator c) eqn:Ec; [discriminate Ein|].
      destruct (match_tail_sound _ _ Ein) as (b' & d' & r' & Ht' & _).
      destruct body as [|c0 body]; cbn [append] in Hs.
      * rewrite Ht'. cbn [String.length]. rewrite length_append. simpl. lia.
      * clear Ht'. inversion Hs; subst. cbn [no_line_terminator] in Hb.
        apply andb_prop in Hb. destruct Hb as [_ Hb].
        pose proof (IH t' Ein body d rest eq_refl Hb Hd).
        cbn [String.length]. lia.
    + destruct body as [|c0 body]; cbn [append] in Hs.
      * destruct (is_digit c); [|discriminate Ht].
        destruct s as [|c' s']; [discriminate Ht|].
        inversion Hs; subst.
        inversion Ht; subst. simpl. lia.
      * exfalso. inversion Hs; subst. cbn [no_line_terminator] in Hb.
        apply andb_prop in Hb. destruct Hb as [Hc Hb].
        apply negb_true_iff in Hc. rewrite Hc in Ein.
        destruct (match_tail_complete body d rest Hb Hd) as [t' Ht'].
        congruence.
Qed.

Lemma match_here_longest (s m : string) :
  match_here s = Some m ->
  forall m' post',
    s = m' ++ post' -> pattern_text m' ->
    (String.length m' <= String.length m)%nat.
Proof.
  intros Hm m' post' Hs Hp. revert Hs.
  destruct Hp as [body d Hb Hd|body d Hb Hd]; intros Hs.
  - assert (Hs' : s = "rgb(" ++ (body ++ String d (String ")" post'))).
    { rewrite Hs, !append_assoc. reflexivity. }
    rewrite Hs' in Hm. cbn [append match_here] in Hm.
    destruct (match_tail (body ++ String d (String ")" post'))) as [t|] eqn:Et;
      [|discriminate Hm].
    inversion Hm; subst m; clear Hm.
    pose proof (match_tail_longest _ _ Et body d post' eq_refl Hb Hd).
    cbn [append String.length]. rewrite length_append. simpl. lia.
  - assert (Hs' : s = "rgba(" ++ (body ++ String d (String ")" post'))).
    { rewrite Hs, !append_assoc. reflexivity. }
    rewrite Hs' in Hm. cbn [append match_here] in Hm.
    destruct (match_tail (body ++ String d (String ")" post'))) as [t|] eqn:Et;
      [|discriminate Hm].
    inversion Hm; subst m; clear Hm.
    pose proof (match_tail_longest _ _ Et body d post' eq_refl Hb Hd).
    cbn [append String.length]. rewrite length_append. simpl. lia.
Qed.

(** X9: the text that the pattern extracts from a string is its leftmost
    match, and of the matches that start there the longest: no text of
    the form rgb(...digit) or rgba(...digit) on one line starts earlier
    in the string, and none that starts at the same place is longer. *)
Theorem regexp_exec_leftmost_longest (s m : string) :
  regexp_exec s = Some m ->
  exists pre post,
    s = pre ++ m ++ post /\
    pattern_text m /\
    forall pre' m' post',
      s = pre' ++ m' ++ post' -> pattern_text m' ->
      (String.length pre <= String.length pre')%nat /\
      (String.length pre' = String.length pre ->
       (String.length m' <= String.length m)%nat).
Proof.
  revert m. induction s as [|c s IH]; intros m Hm.
  - cbn in Hm. discriminate Hm.
  - cbn [regexp_exec] in Hm.
    destruct (match_here (String c s)) as [t|] eqn:Eh.
    + inversion Hm; subst t; clear Hm.
      destruct (match_here_sound _ _ Eh) as (post & Hs & Hp).
      exists EmptyString, post. split; [exact Hs|]. split; [exact Hp|].
      intros pre' m' post' Hs' Hp'. split; [simpl; lia|].
      intros Hlen. destruct pre' as [|c' pre']; [|discriminate Hlen].
      cbn [append] in Hs'. exact (match_here_longest _ _ Eh m' post' Hs' Hp').
    + destruct (IH m Hm) as (pre & post & Hs & Hp & Hbest).
      exists (String c pre), post. split; [cbn [append]; now rewrite <- Hs|].
      split; [exact Hp|].
      intros pre' m' post' Hs' Hp'.
      destruct pre' as [|c' pre']; cbn [append] in Hs'.
      * exfalso. destruct (match_here_complete m' post' Hp') as [t Ht].
        rewrite <- Hs' in Ht. congruence.
      * inversion Hs' as [[Hc Hrest]].
        destruct (Hbest pre' m' post' Hrest Hp') as [Hle Hlong].
        cbn [String.length]. split; [lia|].
        intros Hlen. apply Hlong. lia.
Qed.

Lemma regexp_exec_leftmost_longest_witness :
  exists pre post,
    "var(--a, rgba(1, 2, 3, 0.5)) rgb(4)" = pre ++ "rgba(1, 2, 3, 0.5)) rgb(4)" ++ post /\
    pattern_text "rgba(1, 2, 3, 0.5)) rgb(4)" /\
    forall pre' m' post',
      "var(--a, rgba(1, 2, 3, 0.5)) rgb(4)" = pre' ++ m' ++ post' ->
      pattern_text m' ->
      (String.length pre <= String.length pre')%nat /\
      (String.length pre' = String.length pre ->
       (String.length m' <= String.length "rgba(1, 2, 3, 0.5)) rgb(4)")%nat).
Proof.
  apply (regexp_exec_leftmost_longest
           "var(--a, rgba(1, 2, 3, 0.5)) rgb(4)" "rgba(1, 2, 3, 0.5)) rgb(4)").
  reflexivity.
Defined.

(** X10: what the first callback of colors.map returns is the entry
    itself when the entry does not start with "var(", and otherwise a
    part of the entry that starts with "rgb(" or "rgba(", ends with a
    digit and ")", and lies on one line. *)
Theorem resolve_color_extracts (item c : string) :
  resolve_color item = Ok c ->
  (startsWith_var item = false /\ c = item) \/
  (startsWith_var item = true /\ pattern_text c /\
   exists pre post, item = pre ++ c ++ post).
Proof.
  rewrite resolve_color_spec.
  destruct (startsWith_var item).
  - destruct (regexp_exec item) as [m|] eqn:E; [|discriminate].
    intros H. inversion H; subst m.
    destruct (regexp_exec_sound _ _ E) as (pre & post & Hs & Hp).
    right. split; [reflexivity|]. split; [exact Hp|]. now exists pre, post.
  - intros H. inversion H. left. split; reflexivity.
Qed.

Lemma resolve_color_extracts_witness :
  (startsWith_var "var(--token-0f1f2a, rgb(0, 153, 255))" = false /\
   "rgb(0, 153, 255)" = "var(--token-0f1f2a, rgb(0, 153, 255))") \/
  (startsWith_var "var(--token-0f1f2a, rgb(0, 153, 255))" = true /\
   pattern_text "rgb(0, 153, 255)" /\
   exists pre post,
     "var(--token-0f1f2a, rgb(0, 153, 255))" = pre ++ "rgb(0, 153, 255)" ++ post).
Proof.
  apply (resolve_color_extracts
           "var(--token-0f1f2a, rgb(0, 153, 255))" "rgb(0, 153, 255)").
  reflexivity.
Defined.

(** X11: resolving is idempotent: a colour that the first callback
    returned is returned unchanged when it is resolved again, since an
    extracted colour never starts with "var(". *)
Theorem resolve_color_idempotent (item c : string) :
  resolve_color item = Ok c -> resolve_color c = Ok c.
Proof.
  intros H. rewrite resolve_color_spec in H.
  destruct (startsWith_var item) eqn:Ev.
  - destruct (regexp_exec item) as [m|] eqn:E; [|discriminate H].
    inversion H; subst m.
    destruct (regexp_exec_sound _ _ E) as (_ & _ & _ & Hp).
    rewrite resolve_color_spec, (pattern_text_not_var _ Hp). reflexivity.
  - inversion H; subst c. rewrite resolve_color_spec, Ev. reflexivity.
Qed.

Lemma resolve_color_idempotent_witness :
  resolve_color "rgb(0, 153, 255)" = Ok "rgb(0, 153, 255)".
Proof.
  apply (resolve_color_idempotent "var(--token-0f1f2a, rgb(0, 153, 255))").
  reflexivity.
Defined.

(** * More on the options *)

Lemma loose_eq_false (p : option string) (s : string) :
  p <> Some s -> loose_eq p s = false.
Proof.
  intros Hne. destruct (loose_eq p s) eqn:E; [|reflexivity].
  apply loose_eq_true in E. contradiction.
Qed.

(** X12: while the palette is not "custom" the configured colours have
    no part in the options: whatever list of colours is put in place of
    the configured one, malformed entries included, the projection
    returns the same options, and these have no colors. *)
Theorem options_ignore_hidden_colors `{ColorLibrary}
    (props : Props) (entries : list string) :
  palette props <> Some "custom" ->
  options (with_colors props entries) = options props /\
  exists o, options props = Ok o /\ o.["colors"] = JUndefined.
Proof.
  intros Hne. apply loose_eq_false in Hne.
  unfold options, options_colors. cbn [with_colors colors palette].
  rewrite Hne, !andb_false_r. cbn [and_then].
  split; [reflexivity|]. eexists. split; reflexivity.
Qed.

Lemma options_ignore_hidden_colors_witness :
  @options plain_colors (with_colors defaultProps ["var(--token-1)"])
  = @options plain_colors defaultProps /\
  exists o, @options plain_colors defaultProps = Ok o /\ o.["colors"] = JUndefined.
Proof.
  apply (@options_ignore_hidden_colors plain_colors defaultProps ["var(--token-1)"]).
  discriminate.
Defined.

Lemma resolvable_false_iff (entries : list string) :
  resolvable entries = false
  <-> exists item, In item entries /\ startsWith_var item = true /\ ~ occurs_in item.
Proof.
  unfold resolvable. split.
  - intros H. induction entries as [|item rest IH]; [discriminate H|].
    cbn [forallb] in H. apply andb_false_iff in H. destruct H as [H|H].
    + exists item. split; [now left|].
      apply orb_false_iff in H. destruct H as [Hv Hm].
      apply negb_false_iff in Hv. split; [exact Hv|].
      apply regexp_exec_None. destruct (regexp_exec item); [discriminate Hm | reflexivity].
    + destruct (IH H) as (it & Hin & Hrest). exists it. split; [now right | exact Hrest].
  - intros (item & Hin & Hv & Hno).
    destruct (forallb _ entries) eqn:E; [|reflexivity].
    rewrite forallb_forall in E. specialize (E item Hin).
    apply regexp_exec_None in Hno. rewrite Hv, Hno in E. discriminate E.
Qed.

(** X13: the projection throws exactly for the configs whose palette is
    "custom" and whose colours hold an entry that starts with "var(" and
    has no part of the form rgb(...digit) or rgba(...digit); what it
    throws is then a TypeError. *)
Theorem options_throws_exactly `{ColorLibrary} (props : Props) :
  (forall e, options props = Throw e -> e = TypeError) /\
  (options props = Throw TypeError
   <-> palette props = Some "custom" /\
       exists item, In item (colors props) /\
                    startsWith_var item = true /\ ~ occurs_in item).
Proof.
  rewrite <- resolvable_false_iff.
  pose proof (options_throws_iff props) as Hiff.
  assert (Hany : forall e, options props = Throw e -> e = TypeError).
  { intros e He. unfold options, options_colors in He.
    destruct ((0 <? length (colors props))%nat && loose_eq (palette props) "custom");
      [|discriminate He].
    destruct (resolvable (colors props)) eqn:R.
    - destruct (map_result_resolvable _ R) as [resolved Hr].
      rewrite Hr in He. discriminate He.
    - rewrite (map_result_unresolvable _ R) in He. cbn in He. congruence. }
  split; [exact Hany|]. split.
  - intros He. apply Hiff. now exists TypeError.
  - intros Hc. apply Hiff in Hc. destruct Hc as [e He].
    now rewrite <- (Hany e He).
Qed.

Lemma StrokeCurve_value_inj (a b : StrokeCurve) :
  StrokeCurve_value a = StrokeCurve_value b -> a = b.
Proof. destruct a, b; simpl; intros E; try reflexivity; discriminate E. Qed.

Lemma FillType_value_inj (a b : FillType) :
  FillType_value a = FillType_value b -> a = b.
Proof. destruct a, b; simpl; intros E; try reflexivity; discriminate E. Qed.

Lemma of_optional_string_inj (a b : option string) :
  of_optional_string a = of_optional_string b -> a = b.
Proof. destruct a, b; simpl; intros E; congruence. Qed.

Lemma of_optional_callback_inj (a b : option string) :
  of_optional_callback a = of_optional_callback b -> a = b.
Proof. destruct a, b; simpl; intros E; congruence. Qed.

(** X14: the options lose none of the display props: two configs with
    the same options agree on the chart type, the stacking, toolbar,
    legend, axis, orientation and stroke switches, the stroke width and
    curve, the fill type and opacity, the palette and the three host
    callbacks. *)
Theorem options_determine_props `{ColorLibrary} (p1 p2 : Props) (o : JsValue) :
  options p1 = Ok o -> options p2 = Ok o ->
  chartType p1 = chartType p2 /\
  isStacked p1 = isStacked p2 /\
  showToolbar p1 = showToolbar p2 /\
  showLegend p1 = showLegend p2 /\
  showXaxis p1 = showXaxis p2 /\
  showYaxis p1 = showYaxis p2 /\
  isHorizontal p1 = isHorizontal p2 /\
  showStroke p1 = showStroke p2 /\
  stroke p1 = stroke p2 /\
  strokeCurve p1 = strokeCurve p2 /\
  fillType p1 = fillType p2 /\
  fillOpacity p1 = fillOpacity p2 /\
  palette p1 = palette p2 /\
  onDataPointSelection p1 = onDataPointSelection p2 /\
  onDataPointMouseEnter p1 = onDataPointMouseEnter p2 /\
  onDataPointMouseLeave p1 = onDataPointMouseLeave p2.
Proof.
  unfold options.
  destruct (options_colors p1) as [c1|e1]; [|discriminate].
  destruct (options_colors p2) as [c2|e2]; [|discriminate].
  cbn [and_then]. intros H1 H2. rewrite <- H1 in H2. clear H1.
  inversion H2 as
    [[Hcol Hpal Htype Hstacked Htool Hsel Henter Hleave Hhor Hop Hfill
      Hshow Hcurve Hwidth Hx Hy Hleg]].
  repeat split; try congruence.
  - symmetry. now apply ChartTypes_value_inj.
  - symmetry. now apply StrokeCurve_value_inj.
  - symmetry. now apply FillType_value_inj.
  - symmetry. now apply of_optional_string_inj.
  - symmetry. now apply of_optional_callback_inj.
  - symmetry. now apply of_optional_callback_inj.
  - symmetry. now apply of_optional_callback_inj.
Qed.

Lemma options_determine_props_witness :
  chartType defaultProps = chartType (with_colors defaultProps ["#ff0000"]) /\
  palette defaultProps = palette (with_colors defaultProps ["#ff0000"]).
Proof.
  pose proof (@options_determine_props plain_colors
                defaultProps (with_colors defaultProps ["#ff0000"])
                (match @options plain_colors defaultProps with
                 | Ok o => o
                 | Throw _ => JUndefined
                 end) eq_refl eq_refl) as H.
  split; [exact (proj1 H)|].
  exact (proj1 (proj2 (proj2 (proj2 (proj2 (proj2 (proj2 (proj2 (proj2
          (proj2 (proj2 (proj2 (proj2 H))))))))))))).
Defined.

(** * More on the component *)

Lemma counts_dec (seriesCount points : Z) :
  {counts_rejected seriesCount points} +
  {0 <= seriesCount < 2 ^ 32 /\ (seriesCount = 0 \/ 0 <= points < 2 ^ 32)}.
Proof.
  unfold counts_rejected.
  destruct (Z_lt_le_dec seriesCount 0); [left; lia|].
  destruct (Z_lt_le_dec seriesCount (2 ^ 32)); [|left; lia].
  destruct (Z.eq_dec seriesCount 0); [right; lia|].
  destruct (Z_lt_le_dec points 0); [left; lia|].
  destruct (Z_lt_le_dec points (2 ^ 32)); [right; lia | left; lia].
Qed.

(** [makeSeries] throws for the rejected counts and returns for all
    others. *)
Lemma makeSeries_outcome (seriesCount points : Z) (w : World) :
  (counts_rejected seriesCount points /\
   makeSeries seriesCount points w = Throw RangeError) \/
  (~ counts_rejected seriesCount points /\
   exists l, makeSeries seriesCount points w
             = Ok (l, advance w (Z.to_nat (seriesCount * points)))).
Proof.
  destruct (counts_dec seriesCount points) as [Hrej|[Hs Hp]].
  - left. split; [exact Hrej|]. now apply makeSeries_throws.
  - right. split; [unfold counts_rejected; lia|].
    destruct Hp as [->|Hp].
    + exists []. now rewrite makeSeries_zero, Z.mul_0_l, advance_0.
    + eexists. rewrite makeSeries_ok by assumption.
      rewrite Z2Nat.inj_mul by lia. reflexivity.
Qed.

Lemma options_throw_kind `{ColorLibrary} (props : Props) (e : Exception) :
  options props = Throw e -> e = TypeError.
Proof.
  intros He. unfold options, options_colors in He.
  destruct ((0 <? length (colors props))%nat && loose_eq (palette props) "custom");
    [|discriminate He].
  destruct (resolvable (colors props)) eqn:R.
  - destruct (map_result_resolvable _ R) as [resolved Hr].
    rewrite Hr in He. discriminate He.
  - rewrite (map_result_unresolvable _ R) in He. cbn in He. congruence.
Qed.

(** X15: a render of the full component throws a RangeError exactly
    for the counts makeSeries rejects, whatever the colours are; it
    throws a TypeError exactly when the counts are accepted and the
    options throw; and it returns exactly when the counts are accepted
    and the options return.  The stored series play no part in this. *)
Theorem Charting_outcome `{ColorLibrary} (props : Props) (hooks : Hooks) (w : World) :
  (Charting props hooks w = Throw RangeError
   <-> counts_rejected (seriesCount props) (points props)) /\
  (Charting props hooks w = Throw TypeError
   <-> ~ counts_rejected (seriesCount props) (points props) /\
       options props = Throw TypeError) /\
  ((exists r w', Charting props hooks w = Ok (r, w'))
   <-> ~ counts_rejected (seriesCount props) (points props) /\
       exists o, options props = Ok o).
Proof.
  unfold Charting, bind, lift, ret.
  destruct (makeSeries_outcome (seriesCount props) (points props) w)
    as [[Hrej ->]|[Hacc [l ->]]].
  - split; [tauto|]. split.
    + split; [discriminate | tauto].
    + split; [intros (r & w' & Hr); discriminate Hr | tauto].
  - destruct (options props) as [o|e] eqn:Eo.
    + split; [split; [discriminate | contradiction]|]. split.
      * split; [discriminate | intros [_ Ht]; discriminate Ht].
      * split; [intros _; split; [exact Hacc | now exists o]|].
        intros _. eexists. eexists. reflexivity.
    + pose proof (options_throw_kind props e Eo) as ->.
      split; [split; [discriminate | contradiction]|]. split.
      * split; [tauto | reflexivity].
      * split; [intros (r & w' & Hr); discriminate Hr|].
        intros [_ [o Ho]]. discriminate Ho.
Qed.

(** X16: the reduced component throws nothing but the RangeError of
    makeSeries: it throws for the rejected counts and renders for all
    others, also for the configs whose colours make the full component
    throw. *)
Theorem Basic_Charting_outcome (props : Props) (hooks : Hooks) (w : World) :
  (Basic.Charting props hooks w = Throw RangeError
   <-> counts_rejected (seriesCount props) (points props)) /\
  (forall e, Basic.Charting props hooks w = Throw e -> e = RangeError) /\
  ((exists r w', Basic.Charting props hooks w = Ok (r, w'))
   <-> ~ counts_rejected (seriesCount props) (points props)).
Proof.
  unfold Basic.Charting, bind, ret.
  change (Basic.makeSeries (seriesCount props) (points props) w)
    with (makeSeries (seriesCount props) (points props) w).
  destruct (makeSeries_outcome (seriesCount props) (points props) w)
    as [[Hrej ->]|[Hacc [l ->]]].
  - split; [tauto|]. split; [congruence|].
    split; [intros (r & w' & Hr); discriminate Hr | contradiction].
  - split; [split; [discriminate | contradiction]|].
    split; [discriminate|].
    split; [intros _; exact Hacc|]. intros _. eexists. eexists. reflexivity.
Qed.

(** X17: a render never replaces stored series: with series in the
    state the chart is handed exactly these and the state keeps them,
    yet makeSeries has run all the same and the world is seriesCount
    times pointCount reads further; only without stored series does the
    chart get the newly made ones.  The mounted flag is left alone. *)
Theorem Charting_keeps_series `{ColorLibrary}
    (props : Props) (hooks hooks' : Hooks) (w w' : World) (r : Rendered) :
  Charting props hooks w = Ok ((r, hooks'), w') ->
  (forall stored, series_state hooks = Some stored ->
     chart_series (chart r) = stored /\ series_state hooks' = Some stored) /\
  (series_state hooks = None ->
     makeSeries (seriesCount props) (points props) w
     = Ok (chart_series (chart r), w') /\
     series_state hooks' = Some (chart_series (chart r))) /\
  w' = advance w (Z.to_nat (seriesCount props * points props)) /\
  mounted_state hooks' = mounted_state hooks.
Proof.
  unfold Charting, bind, lift, ret. intros Hr.
  destruct (makeSeries (seriesCount props) (points props) w) as [[init w1]|e] eqn:Em;
    [|discriminate Hr].
  destruct (options props) as [o|e]; [|discriminate Hr].
  inversion Hr; subst; clear Hr. cbn.
  split; [intros stored ->; split; reflexivity|].
  split; [intros ->; split; reflexivity|].
  split; [exact (makeSeries_world _ _ _ _ _ Em) | reflexivity].
Qed.

Lemma Charting_keeps_series_witness :
  exists r hooks' w',
    @Charting plain_colors defaultProps
      {| series_state := Some []; mounted_state := true |} still_world
    = Ok ((r, hooks'), w') /\
    chart_series (chart r) = [] /\
    series_state hooks' = Some [] /\
    w' = advance still_world (Z.to_nat (1 * 5)).
Proof.
  assert (Hrun :
    @Charting plain_colors defaultProps
      {| series_state := Some []; mounted_state := true |} still_world
    = Ok (({| placeholder_visible := Some false;
              chart := {| chart_options :=
                            match @options plain_colors defaultProps with
                            | Ok o => o
                            | Throw _ => JUndefined
                            end;
                          chart_series := [];
                          chart_type := Area;
                          chart_width := width defaultProps;
                          chart_height := height defaultProps |} |},
           {| series_state := Some []; mounted_state := true |}),
          advance still_world 5)).
  { render_series. reflexivity. }
  eexists. eexists. eexists. split; [exact Hrun|].
  destruct (@Charting_keeps_series plain_colors defaultProps _ _ _ _ _ Hrun)
    as (Hstored & _ & Hw & _).
  destruct (Hstored [] eq_refl) as [Hc Hs].
  split; [exact Hc|]. split; [exact Hs | exact Hw].
Defined.

(** What one step leaves alone. *)
Lemma component_step_keeps `{ColorLibrary} (h h' : Hooks) (w w' : World) :
  component_step (h, w) (h', w') ->
  (mounted_state h = true -> mounted_state h' = true) /\
  (series_state h <> None -> series_state h' <> None) /\
  dateNow w' = dateNow w /\
  mathRandom w' = mathRandom w /\
  exists n, clockReads w' = (clockReads w + n)%nat /\
            randomDraws w' = (randomDraws w + n)%nat.
Proof.
  intros Hstep. inversion Hstep as [props h0 h1 w0 w1 r Hr|props h0 h1 w0 w1 He|f h0 w0];
    subst.
  - unfold Charting, bind, lift, ret in Hr.
    destruct (makeSeries (seriesCount props) (points props) w) as [[init v]|e] eqn:Em;
      [|discriminate Hr].
    destruct (options props) as [o|e]; [|discriminate Hr].
    inversion Hr; subst; clear Hr. cbn.
    rewrite (makeSeries_world _ _ _ _ _ Em). cbn.
    repeat split; try tauto; try discriminate. eexists. split; reflexivity.
  - unfold regenerate, bind, ret in He.
    destruct (makeSeries (seriesCount props) (points props) w) as [[l v]|e] eqn:Em;
      [|discriminate He].
    inversion He; subst; clear He. cbn.
    rewrite (makeSeries_world _ _ _ _ _ Em). cbn.
    repeat split; try tauto; try discriminate. eexists. split; reflexivity.
  - destruct f; cbn; repeat split; try tauto.
    + exists 0%nat. now rewrite !Nat.add_0_r.
    + exists 0%nat. now rewrite !Nat.add_0_r.
Qed.

Lemma component_steps_keep `{ColorLibrary} (first last : Hooks * World) :
  component_steps first last ->
  (mounted_state (fst first) = true -> mounted_state (fst last) = true) /\
  (series_state (fst first) <> None -> series_state (fst last) <> None) /\
  dateNow (snd last) = dateNow (snd first) /\
  mathRandom (snd last) = mathRandom (snd first) /\
  exists n, clockReads (snd last) = (clockReads (snd first) + n)%nat /\
            randomDraws (snd last) = (randomDraws (snd first) + n)%nat.
Proof.
  induction 1 as [state|[h w] [h1 w1] last Hstep Hrest IH].
  - repeat split; try tauto. exists 0%nat. now rewrite !Nat.add_0_r.
  - destruct (component_step_keeps h h1 w w1 Hstep) as (Hm & Hs & Hd & Hr & n & Hc & Hn).
    destruct IH as (Hm' & Hs' & Hd' & Hr' & n' & Hc' & Hn'). cbn [fst snd] in *.
    repeat split; try tauto; try congruence.
    exists (n + n')%nat. rewrite Hc', Hn', Hc, Hn. lia.
Qed.

(** X18: once the chart has reported that it is mounted, the
    placeholder never comes back: after any number of renders, runs of
    the effect and chart events, with any props, the mounted flag is
    still set and every render hides the placeholder frame; and series
    once stored are never dropped. *)
Theorem mounted_persists `{ColorLibrary} (h h' : Hooks) (w w' : World) :
  component_steps (h, w) (h', w') ->
  mounted_state h = true ->
  mounted_state h' = true /\
  (series_state h <> None -> series_state h' <> None) /\
  forall props r h'' w'',
    Charting props h' w' = Ok ((r, h''), w'') ->
    placeholder_visible r = Some false.
Proof.
  intros Hsteps Hm.
  destruct (component_steps_keep _ _ Hsteps) as (Hm' & Hs' & _). cbn [fst] in *.
  specialize (Hm' Hm). split; [exact Hm'|]. split; [exact Hs'|].
  intros props r h'' w'' Hr. unfold Charting, bind, lift, ret in Hr.
  destruct (makeSeries (seriesCount props) (points props) w') as [[init v]|e];
    [|discriminate Hr].
  destruct (options props) as [o|e]; [|discriminate Hr].
  inversion Hr; subst. cbn. now rewrite Hm'.
Qed.

Lemma mounted_persists_witness :
  mounted_state (run_callback (HostCallback "select")
                   (run_callback SetMountedTrue fresh_hooks)) = true /\
  (series_state (run_callback SetMountedTrue fresh_hooks) <> None ->
   series_state (run_callback (HostCallback "select")
                   (run_callback SetMountedTrue fresh_hooks)) <> None) /\
  forall props r h'' w'',
    @Charting plain_colors props
      (run_callback (HostCallback "select") (run_callback SetMountedTrue fresh_hooks))
      still_world = Ok ((r, h''), w'') ->
    placeholder_visible r = Some false.
Proof.
  apply (@mounted_persists plain_colors
           (run_callback SetMountedTrue fresh_hooks) _ still_world still_world).
  - eapply steps_more; [apply (step_event (HostCallback "select"))|apply steps_none].
  - reflexivity.
Defined.

(** X19: the component reads the clock exactly as often as the random
    source, and only ever forwards: after any number of renders, runs
    of the effect and chart events the two sources are the same
    streams as before and both cursors have advanced by the same
    number of reads. *)
Theorem reads_stay_paired `{ColorLibrary} (h h' : Hooks) (w w' : World) :
  component_steps (h, w) (h', w') ->
  dateNow w' = dateNow w /\
  mathRandom w' = mathRandom w /\
  exists n, clockReads w' = (clockReads w + n)%nat /\
            randomDraws w' = (randomDraws w + n)%nat.
Proof.
  intros Hsteps.
  destruct (component_steps_keep _ _ Hsteps) as (_ & _ & Hd & Hr & Hn).
  cbn [fst snd] in *. auto.
Qed.

Lemma reads_stay_paired_witness :
  dateNow (advance still_world 5) = dateNow still_world /\
  mathRandom (advance still_world 5) = mathRandom still_world /\
  exists n, clockReads (advance still_world 5) = (clockReads still_world + n)%nat /\
            randomDraws (advance still_world 5) = (randomDraws still_world + n)%nat.
Proof.
  apply (@reads_stay_paired plain_colors fresh_hooks
           {| series_state := Some [series_at still_world 5];
              mounted_state := false |}).
  eapply steps_more; [|apply steps_none].
  apply (step_effect defaultProps).
  unfold regenerate, bind. rewrite makeSeries_ok by (simpl; lia). reflexivity.
Defined.

(** * More on the property controls *)

(** X20: the four predicates are all there is to hiding: a control is
    hidden exactly when it is the orientation control and the chart
    type is not "bar", the fill-opacity control and the fill type is
    not "solid", the stroke-width control and the stroke is off, or the
    colour list control and the palette is not "custom"; every other
    control, and every name without a control, is never hidden. *)
Theorem hidden_exactly (name : string) (props : Props) :
  hidden name props = true
  <-> (name = "isHorizontal" /\ chartType props <> Bar) \/
      (name = "fillOpacity" /\ fillType props <> Solid) \/
      (name = "stroke" /\ showStroke props = false) \/
      (name = "colors" /\ palette props <> Some "custom").
Proof.
  unfold hidden, propertyControls. cbn [find_control].
  repeat match goal with
         | |- context [String.eqb name ?k] =>
             destruct (String.eqb_spec name k) as [->|?]
         end;
    cbn [String.eqb Ascii.eqb Bool.eqb find_control control_hidden].
  all: try (split; [discriminate|];
            intros [[E _]|[[E _]|[[E _]|[E _]]]]; try discriminate E; congruence).
  - (* isHorizontal *)
    split.
    + intros Hh. left. split; [reflexivity|]. intros Hb. rewrite Hb in Hh. discriminate Hh.
    + intros [[_ Hne]|[[E _]|[[E _]|[E _]]]]; try discriminate E.
      destruct (chartType props); try reflexivity. contradiction.
  - (* fillOpacity *)
    split.
    + intros Hh. right. left. split; [reflexivity|]. intros Hb. rewrite Hb in Hh.
      discriminate Hh.
    + intros [[E _]|[[_ Hne]|[[E _]|[E _]]]]; try discriminate E.
      destruct (fillType props); try reflexivity. contradiction.
  - (* stroke *)
    split.
    + intros Hh. right. right. left. split; [reflexivity|].
      destruct (showStroke props); [discriminate Hh | reflexivity].
    + intros [[E _]|[[E _]|[[_ Hs]|[E _]]]]; try discriminate E.
      now rewrite Hs.
  - (* colors *)
    split.
    + intros Hh. right. right. right. split; [reflexivity|]. intros Hp.
      rewrite Hp in Hh. discriminate Hh.
    + intros [[E _]|[[E _]|[[E _]|[_ Hp]]]]; try discriminate E.
      apply negb_true_iff. now apply loose_eq_false.
Qed.

(** X21: the effect brings the stored series in line with the props at
    hand: after a run of the effect the state holds exactly seriesCount
    series of pointCount points each, newly made, whatever was stored
    before; the mounted flag is left alone. *)
Theorem regenerate_resyncs
    (props : Props) (hooks hooks' : Hooks) (w w' : World) :
  regenerate props hooks w = Ok (hooks', w') ->
  exists l,
    series_state hooks' = Some l /\
    makeSeries (seriesCount props) (points props) w = Ok (l, w') /\
    Z.of_nat (length l) = seriesCount props /\
    Forall (fun s => length (data s) = Z.to_nat (points props)) l /\
    mounted_state hooks' = mounted_state hooks.
Proof.
  unfold regenerate, bind, ret. intros He.
  destruct (makeSeries (seriesCount props) (points props) w) as [[l v]|e] eqn:Em;
    [|discriminate He].
  inversion He; subst; clear He. exists l. cbn.
  split; [reflexivity|]. split; [reflexivity|].
  pose proof (makeSeries_inv _ _ _ _ _ Em) as (Hs & _ & ->).
  split; [rewrite length_map, length_seq; lia|].
  split; [|reflexivity].
  apply Forall_forall. intros s Hin. apply in_map_iff in Hin.
  destruct Hin as (k & <- & _). apply series_at_length.
Qed.

Lemma regenerate_resyncs_witness :
  exists l,
    series_state {| series_state := Some [series_at still_world 5];
                    mounted_state := true |} = Some l /\
    makeSeries (seriesCount defaultProps) (points defaultProps) still_world
    = Ok (l, advance still_world 5) /\
    Z.of_nat (length l) = seriesCount defaultProps /\
    Forall (fun s => length (data s) = Z.to_nat (points defaultProps)) l /\
    mounted_state {| series_state := Some [series_at still_world 5];
                     mounted_state := true |}
    = mounted_state {| series_state := Some []; mounted_state := true |}.
Proof.
  apply (regenerate_resyncs defaultProps
           {| series_state := Some []; mounted_state := true |}
           {| series_state := Some [series_at still_world 5];
              mounted_state := true |}
           still_world (advance still_world 5)).
  unfold regenerate, bind. rewrite makeSeries_ok by (simpl; lia). reflexivity.
Defined.
